(** * Audit rule evaluation and category linkage

    A shallow embedding of the rule engine ([evaluateRules]), of the
    request-type migration performed by [db.init] and of the rule deletion
    handler of the settings page, followed by the properties proved about
    them.

    Conventions of the embedding:
    - a JavaScript string is a [string]; an optional field is an [option];
    - a JavaScript number that carries a measured quantity (an amount, a
      confidence) is an IEEE 754 binary64 [float], compared with the
      primitive comparison, which is the comparison JavaScript performs;
    - the risk score is a sum of the integer weights of the table below, one
      per element of an array; such a sum stays far below 2^53, where
      binary64 addition of integers is exact, so it is carried as a [Z];
    - what the engine asks of the JavaScript host and cannot be read in the
      repository (case mapping, number/string conversions, the time zone,
      the non-standard part of the date parser) is a field of [Js.Host],
      and every property is proved for an arbitrary host. *)

From Stdlib Require Import Bool List String Ascii ZArith Lia Floats Uint63.
From Stdlib Require Import DecimalString.
Import ListNotations.

Local Open Scope string_scope.
Local Open Scope Z_scope.

(** ** JavaScript values and built-ins used by the code *)

Module Js.

(** Truthiness of a string: every string but the empty one. *)
Definition truthy (s : string) : bool := negb (s =? "")%string.

(** Truthiness of an optional string ([undefined] is falsy). *)
Definition truthy_opt (o : option string) : bool :=
  match o with
  | Some s => truthy s
  | None => false
  end.

(** [o || ''] on an optional string. *)
Definition or_empty (o : option string) : string :=
  match o with
  | Some s => if truthy s then s else ""
  | None => ""
  end.

(** [String.prototype.includes]: [t] occurs in [s]. *)
Fixpoint includes (s t : string) : bool :=
  prefix t s ||
  match s with
  | EmptyString => false
  | String _ s' => includes s' t
  end.

(** [Array.prototype.includes] on an array of strings. *)
Definition array_includes (l : list string) (x : string) : bool :=
  existsb (fun y => (y =? x)%string) l.

(** What the engine obtains from the host. *)
Record Host := {
  (** [String.prototype.toLowerCase] *)
  toLowerCase : string -> string;
  (** [Number(s)] on a string *)
  StringToNumber : string -> float;
  (** [String(n)] on a number *)
  NumberToString : float -> string;
  (** offset of the local time zone, in milliseconds, at a UTC time value *)
  LocalTZA : Z -> Z;
  (** [Date.parse] on a string that is not a plain calendar date
      [YYYY-MM-DD]; [None] stands for [NaN] *)
  parseOtherDate : string -> option Z
}.

(** *** Dates: time values are milliseconds since the epoch, UTC *)

Definition msPerDay : Z := 86400000.

Definition Day (t : Z) : Z := t / msPerDay.

Definition WeekDay (t : Z) : Z := (Day t + 4) mod 7.

Definition DayFromYear (y : Z) : Z :=
  365 * (y - 1970) + (y - 1969) / 4 - (y - 1901) / 100 + (y - 1601) / 400.

Definition InLeapYear (y : Z) : bool :=
  ((y mod 4 =? 0) && negb (y mod 100 =? 0)) || (y mod 400 =? 0).

Definition DaysInMonth (y m : Z) : Z :=
  if m =? 2 then (if InLeapYear y then 29 else 28)
  else if (m =? 4) || (m =? 6) || (m =? 9) || (m =? 11) then 30
  else 31.

(** Days of year [y] that precede month [m] (1 to 12). *)
Fixpoint DaysBeforeMonth (y : Z) (m : nat) : Z :=
  match m with
  | O => 0
  | S O => 0
  | S m' => DaysBeforeMonth y m' + DaysInMonth y (Z.of_nat m')
  end.

(** Day number of the calendar date [y]-[m]-[d]. *)
Definition MakeDay (y m d : Z) : Z :=
  DayFromYear y + DaysBeforeMonth y (Z.to_nat m) + d - 1.

Definition digit (c : ascii) : option Z :=
  let n := Z.of_nat (nat_of_ascii c) in
  if (48 <=? n) && (n <=? 57) then Some (n - 48) else None.

Definition digits2 (a b : ascii) : option Z :=
  match digit a, digit b with
  | Some x, Some y => Some (10 * x + y)
  | _, _ => None
  end.

Definition digits4 (a b c d : ascii) : option Z :=
  match digits2 a b, digits2 c d with
  | Some x, Some y => Some (100 * x + y)
  | _, _ => None
  end.

Definition is_dash (c : ascii) : bool := (c =? "-")%char.

(** The date-only form of the date-time string format: [YYYY-MM-DD] with
    a month from 01 to 12 and a day that exists in that month. *)
Definition parseCalendarDate (s : string) : option (Z * Z * Z) :=
  match list_ascii_of_string s with
  | [y1; y2; y3; y4; s1; m1; m2; s2; d1; d2] =>
      match digits4 y1 y2 y3 y4, digits2 m1 m2, digits2 d1 d2 with
      | Some y, Some m, Some d =>
          if is_dash s1 && is_dash s2 && (1 <=? m) && (m <=? 12)
             && (1 <=? d) && (d <=? DaysInMonth y m)
          then Some (y, m, d) else None
      | _, _, _ => None
      end
  | _ => None
  end.

(** [new Date(s).getTime()]: a calendar date is midnight UTC of that day;
    any other string is left to the host. *)
Definition Date_getTime (h : Host) (s : string) : option Z :=
  match parseCalendarDate s with
  | Some (y, m, d) => Some (MakeDay y m d * msPerDay)
  | None => parseOtherDate h s
  end.

(** [Date.prototype.getDay] at a valid time value: the day of the week
    of the local time, 0 for Sunday to 6 for Saturday. *)
Definition getDay (h : Host) (t : Z) : Z := WeekDay (t + LocalTZA h t).

(** [Date.prototype.getUTCDay], for comparison. *)
Definition getUTCDay (t : Z) : Z := WeekDay t.

End Js.

(** ** types.ts *)

Module RuleType.
Definition MAX_AMOUNT : string := "MAX_AMOUNT".
Definition FORBIDDEN_CATEGORY : string := "FORBIDDEN_CATEGORY".
Definition WEEKEND_BAN : string := "WEEKEND_BAN".
Definition REQUIRED_FIELD : string := "REQUIRED_FIELD".
End RuleType.

(** [value: string | number] *)
Inductive RuleValue : Type :=
| VNum (n : float)
| VStr (s : string).

Module RequestType.
Record t := {
  id : string;
  name : string;
  linkedRuleIds : option (list string)
}.
End RequestType.

Module AuditRule.
Record t := {
  id : string;
  name : string;
  (** a [RuleType] by its declaration, any string once read from storage
      or from an imported file *)
  type : string;
  value : RuleValue;
  enabled : bool;
  description : string;
  receiptType : option string;
  linkedRequestType : option string
}.
End AuditRule.

Module ReceiptItem.
Record t := {
  description : string;
  amount : float
}.
End ReceiptItem.

Module ReceiptData.
Record t := {
  merchantName : string;
  date : string;
  totalAmount : float;
  currency : string;
  category : string;
  type : option string;
  items : list ReceiptItem.t;
  confidence : float
}.
End ReceiptData.

Module AuditResult.
Record t := {
  passed : bool;
  triggeredRules : list string;
  score : Z
}.
End AuditResult.

(** ** utils/ruleEngine.ts *)

(** Risk weight of each rule type; a key outside the table has no entry. *)
Definition RULE_WEIGHTS (k : string) : option Z :=
  if (k =? RuleType.FORBIDDEN_CATEGORY)%string then Some 100
  else if (k =? RuleType.MAX_AMOUNT)%string then Some 60
  else if (k =? RuleType.WEEKEND_BAN)%string then Some 30
  else if (k =? RuleType.REQUIRED_FIELD)%string then Some 20
  else None.

(** [RULE_WEIGHTS[k] || 10]: a missing entry, and a zero one, give 10. *)
Definition weight_or_default (k : string) : Z :=
  match RULE_WEIGHTS k with
  | Some w => if w =? 0 then 10 else w
  | None => 10
  end.

(** The two placeholders of a merchant name that was not recognised. *)
Definition MERCHANT_UNKNOWN : string := "Unknown".
Definition MERCHANT_UNKNOWN_ZH : string := "未知".

(** The variables of the loop of [evaluateRules]. *)
Record LoopState := {
  triggeredRules : list string;
  totalRiskScore : Z
}.

Section RuleEngine.

Variable host : Js.Host.

(** [Number(rule.value)] *)
Definition Number (v : RuleValue) : float :=
  match v with
  | VNum n => n
  | VStr s => Js.StringToNumber host s
  end.

(** [String(rule.value)] *)
Definition String_ (v : RuleValue) : string :=
  match v with
  | VNum n => Js.NumberToString host n
  | VStr s => s
  end.

(** [rule.value === tok] for a string literal [tok]. *)
Definition value_is (v : RuleValue) (tok : string) : bool :=
  match v with
  | VNum _ => false
  | VStr s => (s =? tok)%string
  end.

(** The date test of the [WEEKEND_BAN] case. *)
Definition weekend_violation (d : string) : bool :=
  if Js.truthy d then
    match Js.Date_getTime host d with
    | Some t =>
        let day := Js.getDay host t in
        (day =? 0) || (day =? 6)
    | None => false
    end
  else false.

(** The [switch] on [rule.type]: the value of [violation] after it. *)
Definition violation (data : ReceiptData.t) (rule : AuditRule.t) : bool :=
  let k := AuditRule.type rule in
  if (k =? RuleType.MAX_AMOUNT)%string then
    PrimFloat.ltb (Number (AuditRule.value rule)) (ReceiptData.totalAmount data)
  else if (k =? RuleType.FORBIDDEN_CATEGORY)%string then
    Js.truthy (ReceiptData.category data) &&
    Js.includes (Js.toLowerCase host (ReceiptData.category data))
                (Js.toLowerCase host (String_ (AuditRule.value rule)))
  else if (k =? RuleType.WEEKEND_BAN)%string then
    weekend_violation (ReceiptData.date data)
  else if (k =? RuleType.REQUIRED_FIELD)%string then
    value_is (AuditRule.value rule) "Merchant" &&
    (negb (Js.truthy (ReceiptData.merchantName data))
     || (ReceiptData.merchantName data =? MERCHANT_UNKNOWN)%string
     || (ReceiptData.merchantName data =? MERCHANT_UNKNOWN_ZH)%string)
  else false.

(** First [continue]: a list of active ids is given and lacks the rule. *)
Definition not_activated (activeRuleIds : option (list string))
           (rule : AuditRule.t) : bool :=
  match activeRuleIds with
  | Some ids => negb (Js.array_includes ids (AuditRule.id rule))
  | None => false
  end.

(** Second [continue]: the rule names a receipt type other than ['ALL']
    and the type of the receipt does not contain it. *)
Definition wrong_receipt_type (data : ReceiptData.t)
           (rule : AuditRule.t) : bool :=
  match AuditRule.receiptType rule with
  | Some rt =>
      if Js.truthy rt && negb (rt =? "ALL")%string then
        let currentType := Js.or_empty (ReceiptData.type data) in
        negb (Js.includes currentType rt)
      else false
  | None => false
  end.

(** One iteration of [for (const rule of activeRules)]. *)
Definition loop_body (data : ReceiptData.t)
           (activeRuleIds : option (list string))
           (st : LoopState) (rule : AuditRule.t) : LoopState :=
  if not_activated activeRuleIds rule then st
  else if wrong_receipt_type data rule then st
  else if violation data rule then
    {| triggeredRules := triggeredRules st ++ [AuditRule.id rule];
       totalRiskScore :=
         totalRiskScore st + weight_or_default (AuditRule.type rule) |}
  else st.

Definition evaluateRules (data : ReceiptData.t) (rules : list AuditRule.t)
           (activeRuleIds : option (list string)) : AuditResult.t :=
  let activeRules := filter AuditRule.enabled rules in
  let st :=
    fold_left (loop_body data activeRuleIds) activeRules
              {| triggeredRules := []; totalRiskScore := 0 |} in
  let finalScore := Z.min (Z.max (totalRiskScore st) 0) 100 in
  {| AuditResult.passed := (List.length (triggeredRules st) =? 0)%nat;
     AuditResult.triggeredRules := triggeredRules st;
     AuditResult.score := finalScore |}.

End RuleEngine.

(** ** components/UploadReceipt.tsx: the caller of the engine *)

(** [availableRequestTypes.find(rt => rt.name === typeName)] *)
Definition find_type (availableRequestTypes : list RequestType.t)
           (typeName : string) : option RequestType.t :=
  find (fun rt => (RequestType.name rt =? typeName)%string)
       availableRequestTypes.

(** [type?.linkedRuleIds] *)
Definition getActiveRulesForType (availableRequestTypes : list RequestType.t)
           (typeName : string) : option (list string) :=
  match find_type availableRequestTypes typeName with
  | Some rt => RequestType.linkedRuleIds rt
  | None => None
  end.

(** ** services/db.ts: the request-type migration of [db.init] *)

(** The two tables the migration reads. *)
Record Tables := {
  rules_table : list AuditRule.t;
  request_types_table : list RequestType.t
}.

(** The predicate of [rules.filter] inside the migration. *)
Definition legacy_match (rt : RequestType.t) (r : AuditRule.t) : bool :=
  negb (Js.truthy_opt (AuditRule.linkedRequestType r))
  || match AuditRule.linkedRequestType r with
     | Some tag => (tag =? "ALL")%string || (tag =? RequestType.id rt)%string
     | None => false
     end.

(** The body of [requestTypes.map]: [{...rt, linkedRuleIds: ...}]. *)
Definition relink (rules : list AuditRule.t) (rt : RequestType.t)
  : RequestType.t :=
  let matchingRules := filter (legacy_match rt) rules in
  {| RequestType.id := RequestType.id rt;
     RequestType.name := RequestType.name rt;
     RequestType.linkedRuleIds := Some (map AuditRule.id matchingRules) |}.

(** [updatedTypes] *)
Definition migrateLinkage (requestTypes : list RequestType.t)
           (rules : list AuditRule.t) : list RequestType.t :=
  map (relink rules) requestTypes.

(** The guard of the migration: the table is not empty and its first row
    has no [linkedRuleIds]. *)
Definition needs_migration (requestTypes : list RequestType.t) : bool :=
  match requestTypes with
  | rt0 :: _ =>
      match RequestType.linkedRuleIds rt0 with
      | None => true
      | Some _ => false
      end
  | [] => false
  end.

(** The migration step: when the guard holds the table of request types is
    emptied and refilled with [updatedTypes]. *)
Definition migrate_request_types (db : Tables) : Tables :=
  let requestTypes := request_types_table db in
  if needs_migration requestTypes then
    let rules := rules_table db in
    {| rules_table := rules_table db;
       request_types_table := migrateLinkage requestTypes rules |}
  else db.

(** ** The settings page: deleting a rule *)

(** The state the handler reads and writes. *)
Record Settings := {
  rules : list AuditRule.t;
  requestTypes : list RequestType.t;
  isAddingRule : bool;
  editingRuleId : option string
}.

(** [rt.linkedRuleIds?.filter(rid => rid !== id) || []] *)
Definition unlink (id : string) (rt : RequestType.t) : RequestType.t :=
  {| RequestType.id := RequestType.id rt;
     RequestType.name := RequestType.name rt;
     RequestType.linkedRuleIds :=
       Some (match RequestType.linkedRuleIds rt with
             | Some ids => filter (fun rid => negb (rid =? id)%string) ids
             | None => []
             end) |}.

(** [editingRuleId === id] *)
Definition is_editing (st : Settings) (id : string) : bool :=
  match editingRuleId st with
  | Some e => (e =? id)%string
  | None => false
  end.

(** [handleDeleteRule(id)], given whether the page is read-only and what
    the user answers to the confirmation dialog. *)
Definition handleDeleteRule (readOnly confirmed : bool) (id : string)
           (st : Settings) : Settings :=
  if readOnly then st
  else if confirmed then
    {| rules := filter (fun r => negb (AuditRule.id r =? id)%string) (rules st);
       requestTypes := map (unlink id) (requestTypes st);
       isAddingRule := if is_editing st id then false else isAddingRule st;
       editingRuleId := if is_editing st id then None else editingRuleId st |}
  else st.

(** ** Vocabulary of the properties *)

(** The rule passes both [continue] tests of the loop and the [switch] sets
    [violation]. *)
Definition hit (host : Js.Host) (data : ReceiptData.t)
           (activeRuleIds : option (list string)) (r : AuditRule.t) : bool :=
  negb (not_activated activeRuleIds r)
  && negb (wrong_receipt_type data r)
  && violation host data r.

(** The rule passes the filter on [enabled] and both [continue] tests and
    the [switch] sets [violation]. *)
Definition fires (host : Js.Host) (data : ReceiptData.t)
           (activeRuleIds : option (list string)) (r : AuditRule.t) : bool :=
  AuditRule.enabled r
  && negb (not_activated activeRuleIds r)
  && negb (wrong_receipt_type data r)
  && violation host data r.

(** The weight table as the specification words it, by kind, with 10 for
    any kind outside the table. *)
Definition kind_weight (k : string) : Z :=
  if (k =? "FORBIDDEN_CATEGORY")%string then 100
  else if (k =? "MAX_AMOUNT")%string then 60
  else if (k =? "WEEKEND_BAN")%string then 30
  else if (k =? "REQUIRED_FIELD")%string then 20
  else 10.

Definition sumZ (l : list Z) : Z := fold_right Z.add 0 l.

(** Clamping to the interval from 0 to 100. *)
Definition clamp100 (x : Z) : Z :=
  if x <? 0 then 0 else if 100 <? x then 100 else x.

(** [l1] is obtained from [l2] by deleting elements: same relative order. *)
Inductive Subseq {A : Type} : list A -> list A -> Prop :=
| Subseq_nil : Subseq [] []
| Subseq_skip : forall x l1 l2, Subseq l1 l2 -> Subseq l1 (x :: l2)
| Subseq_keep : forall x l1 l2, Subseq l1 l2 -> Subseq (x :: l1) (x :: l2).

(** One of the four kinds the [switch] has a case for. *)
Definition known_kind (k : string) : bool :=
  (k =? RuleType.MAX_AMOUNT)%string
  || (k =? RuleType.FORBIDDEN_CATEGORY)%string
  || (k =? RuleType.WEEKEND_BAN)%string
  || (k =? RuleType.REQUIRED_FIELD)%string.

(** A rule of a kind the [switch] has no case for, or a [REQUIRED_FIELD]
    rule whose field token is not ['Merchant']. *)
Definition unhandled (r : AuditRule.t) : bool :=
  negb (known_kind (AuditRule.type r))
  || ((AuditRule.type r =? RuleType.REQUIRED_FIELD)%string
      && negb match AuditRule.value r with
              | VStr s => (s =? "Merchant")%string
              | VNum _ => false
              end).

(** The legacy tag of a rule is absent: the field is [undefined]. *)
Definition tag_absent (r : AuditRule.t) : Prop :=
  AuditRule.linkedRequestType r = None.

(** The legacy tag of a rule is present and is the empty string. *)
Definition tag_empty (r : AuditRule.t) : Prop :=
  AuditRule.linkedRequestType r = Some "".

(** The linkage rule in the words of the specification: the tag is
    absent, is "ALL", or is the id of the request type. *)
Definition spec_linked (rt : RequestType.t) (r : AuditRule.t) : Prop :=
  tag_absent r \/
  AuditRule.linkedRequestType r = Some "ALL" \/
  AuditRule.linkedRequestType r = Some (RequestType.id rt).

(** The linkage rule of the migration, which tests the tag with
    [!r.linkedRequestType]: the rule of the specification and, besides,
    the rules whose tag is the empty string. *)
Definition legacy_linked (rt : RequestType.t) (r : AuditRule.t) : Prop :=
  spec_linked rt r \/ tag_empty r.

(** ** Hosts and data of the examples *)

Definition lower_char (c : ascii) : ascii :=
  let n := nat_of_ascii c in
  if ((65 <=? n) && (n <=? 90))%nat then ascii_of_nat (n + 32) else c.

(** Lower-casing of the letters A to Z. *)
Fixpoint ascii_lower (s : string) : string :=
  match s with
  | EmptyString => EmptyString
  | String c s' => String (lower_char c) (ascii_lower s')
  end.

Definition float_of_Z (z : Z) : float := PrimFloat.of_uint63 (Uint63.of_Z z).

(** The integer a float holds, for a non-negative integer below 2^53. *)
Definition Z_of_float (f : float) : Z :=
  let (m, e) := PrimFloat.frshiftexp f in
  Z.shiftr (Uint63.to_Z (PrimFloat.normfr_mantissa m))
           (53 - (Uint63.to_Z e - 2101)).

Fixpoint digits_value (acc : Z) (s : string) : option Z :=
  match s with
  | EmptyString => Some acc
  | String c s' =>
      match Js.digit c with
      | Some d => digits_value (10 * acc + d) s'
      | None => None
      end
  end.

(** Number conversions of the example hosts, exact on the decimal numerals
    of naturals below 2^53; anything else is read as, or printed as, NaN. *)
Definition digits_to_number (s : string) : float :=
  match digits_value 0 s with
  | Some z => if z <? 2 ^ 53 then float_of_Z z else PrimFloat.nan
  | None => PrimFloat.nan
  end.

Definition natural_to_string (f : float) : string :=
  let z := Z_of_float f in
  if PrimFloat.eqb (float_of_Z z) f && (z <? 2 ^ 53)
  then NilEmpty.string_of_uint (N.to_uint (Z.to_N z))
  else "NaN".

(** Strings the example hosts parse besides calendar dates: none. *)
Definition no_other_date (s : string) : option Z := None.

(** A host whose local time is UTC. *)
Definition hostUTC : Js.Host :=
  {| Js.toLowerCase := ascii_lower;
     Js.StringToNumber := digits_to_number;
     Js.NumberToString := natural_to_string;
     Js.LocalTZA := fun _ => 0;
     Js.parseOtherDate := no_other_date |}.

(** A host whose local time is five hours behind UTC. *)
Definition hostWest5 : Js.Host :=
  {| Js.toLowerCase := ascii_lower;
     Js.StringToNumber := digits_to_number;
     Js.NumberToString := natural_to_string;
     Js.LocalTZA := fun _ => -5 * 3600000;
     Js.parseOtherDate := no_other_date |}.

(** A host whose local time is eight hours ahead of UTC. *)
Definition hostEast8 : Js.Host :=
  {| Js.toLowerCase := ascii_lower;
     Js.StringToNumber := digits_to_number;
     Js.NumberToString := natural_to_string;
     Js.LocalTZA := fun _ => 8 * 3600000;
     Js.parseOtherDate := no_other_date |}.

Definition mkRule (i k : string) (v : RuleValue) (en : bool) : AuditRule.t :=
  {| AuditRule.id := i; AuditRule.name := i; AuditRule.type := k;
     AuditRule.value := v; AuditRule.enabled := en;
     AuditRule.description := ""; AuditRule.receiptType := Some "ALL";
     AuditRule.linkedRequestType := Some "ALL" |}.

Definition mkReceipt (merchant d : string) (amount : float) (cat : string)
  : ReceiptData.t :=
  {| ReceiptData.merchantName := merchant; ReceiptData.date := d;
     ReceiptData.totalAmount := amount; ReceiptData.currency := "CNY";
     ReceiptData.category := cat; ReceiptData.type := Some "Invoice";
     ReceiptData.items := []; ReceiptData.confidence := 0.5%float |}.

Definition rule_max : AuditRule.t :=
  mkRule "r1" RuleType.MAX_AMOUNT (VNum 2000%float) true.
Definition rule_forbid : AuditRule.t :=
  mkRule "r2" RuleType.FORBIDDEN_CATEGORY (VStr "entertainment") true.
Definition rule_weekend : AuditRule.t :=
  mkRule "r3" RuleType.WEEKEND_BAN (VStr "All") true.
Definition rule_merchant : AuditRule.t :=
  mkRule "r4" RuleType.REQUIRED_FIELD (VStr "Merchant") true.
Definition rule_off : AuditRule.t :=
  mkRule "r5" RuleType.MAX_AMOUNT (VNum 10%float) false.
Definition rule_odd : AuditRule.t :=
  mkRule "r6" "CURRENCY_BAN" (VStr "USD") true.
Definition rule_zero : AuditRule.t :=
  mkRule "r7" RuleType.MAX_AMOUNT (VNum 0%float) true.

Definition catalog : list AuditRule.t :=
  [rule_max; rule_forbid; rule_weekend; rule_merchant; rule_off; rule_odd].

Definition receipt_sat : ReceiptData.t :=
  mkReceipt "Cafe" "2024-01-06" 2500%float "Entertainment & Dining".

(** A receipt that only differs from an unremarkable one by its date. *)
Definition receipt_on (d : string) : ReceiptData.t :=
  mkReceipt "Cafe" d 10%float "Food".

(** A receipt with an empty category label. *)
Definition receipt_unlabelled : ReceiptData.t :=
  mkReceipt "Cafe" "2024-01-08" 10%float "".

(** A category rule whose token is the empty string. *)
Definition rule_forbid_empty : AuditRule.t :=
  mkRule "r8" RuleType.FORBIDDEN_CATEGORY (VStr "") true.

(** A [REQUIRED_FIELD] rule for a field other than the merchant. *)
Definition rule_date_field : AuditRule.t :=
  mkRule "r9" RuleType.REQUIRED_FIELD (VStr "Date") true.

Definition receipt_anonymous : ReceiptData.t :=
  mkReceipt "" "2024-01-08" 10%float "Food".

(** Rules as they were stored before request types carried their links:
    each with a legacy tag, or none. *)
Definition legacy_rule (i : string) (tag : option string) : AuditRule.t :=
  {| AuditRule.id := i; AuditRule.name := i;
     AuditRule.type := RuleType.MAX_AMOUNT;
     AuditRule.value := VNum 2000%float; AuditRule.enabled := true;
     AuditRule.description := ""; AuditRule.receiptType := Some "ALL";
     AuditRule.linkedRequestType := tag |}.

Definition legacy_rules : list AuditRule.t :=
  [legacy_rule "a" None; legacy_rule "b" (Some "ALL");
   legacy_rule "c" (Some "rt_travel"); legacy_rule "d" (Some "rt_meals");
   legacy_rule "e" (Some "")].

Definition legacy_type (i n : string) : RequestType.t :=
  {| RequestType.id := i; RequestType.name := n;
     RequestType.linkedRuleIds := None |}.

Definition legacy_tables : Tables :=
  {| rules_table := legacy_rules;
     request_types_table :=
       [legacy_type "rt_travel" "Travel"; legacy_type "rt_meals" "Meals";
        legacy_type "rt_other" "Other"] |}.

(** Settings in which one request type lists its rules, one id twice, and
    another has no list. *)
Definition settings_sample : Settings :=
  {| rules := catalog;
     requestTypes :=
       [{| RequestType.id := "rt_travel"; RequestType.name := "Travel";
           RequestType.linkedRuleIds := Some ["r2"; "r1"; "r3"; "r2"; "r4"] |};
        {| RequestType.id := "rt_meals"; RequestType.name := "Meals";
           RequestType.linkedRuleIds := Some ["r1"] |};
        legacy_type "rt_other" "Other"];
     isAddingRule := true;
     editingRuleId := Some "r2" |}.

(** A rule for taxi receipts only, and a taxi receipt. *)
Definition rule_taxi : AuditRule.t :=
  {| AuditRule.id := "r10"; AuditRule.name := "taxi limit";
     AuditRule.type := RuleType.MAX_AMOUNT;
     AuditRule.value := VNum 200%float; AuditRule.enabled := true;
     AuditRule.description := ""; AuditRule.receiptType := Some "Taxi";
     AuditRule.linkedRequestType := None |}.

Definition receipt_taxi : ReceiptData.t :=
  {| ReceiptData.merchantName := "Cab"; ReceiptData.date := "2024-01-08";
     ReceiptData.totalAmount := 250%float; ReceiptData.currency := "CNY";
     ReceiptData.category := "Transport";
     ReceiptData.type := Some "Taxi receipt";
     ReceiptData.items := []; ReceiptData.confidence := 0.5%float |}.

(** ** types.ts: requests, users and the default request types *)

Module RequestStatus.
Inductive t : Type := PENDING | APPROVED | REJECTED | NEEDS_REVIEW | WITHDRAWN.

Definition eqb (a b : t) : bool :=
  match a, b with
  | PENDING, PENDING | APPROVED, APPROVED | REJECTED, REJECTED
  | NEEDS_REVIEW, NEEDS_REVIEW | WITHDRAWN, WITHDRAWN => true
  | _, _ => false
  end.
End RequestStatus.

Module UserRole.
Inductive t : Type := EMPLOYEE | AUDITOR | ADMIN.
End UserRole.

Module User.
Record t := {
  id : string;
  name : string;
  role : UserRole.t;
  avatar : string
}.
End User.

Module RequestHistoryEntry.
Record t := {
  timestamp : string;
  actorName : string;
  action : string;
  status : RequestStatus.t;
  note : option string
}.
End RequestHistoryEntry.

Module ReimbursementRequest.
Record t := {
  id : string;
  employeeId : string;
  employeeName : string;
  submissionDate : string;
  receiptImage : string;
  data : ReceiptData.t;
  requestType : string;
  status : RequestStatus.t;
  auditResult : AuditResult.t;
  comments : option string;
  processedBy : option string;
  processedAt : option string;
  history : option (list RequestHistoryEntry.t)
}.
End ReimbursementRequest.

Definition DEFAULT_REQUEST_TYPES_LIST : list string :=
  ["日常报销"; "差旅报销"; "小额采购"; "业务招待"; "团建费用"; "培训会议";
   "其他"].

(** ** services/db.ts: seeding of the request types *)

(** The decimal numeral a template literal prints for an integer. *)
Definition decimal (z : Z) : string := NilEmpty.string_of_int (Z.to_int z).

(** [l.map((x, idx) => f x idx)], the index starting from [i]. *)
Fixpoint mapi_from {A B : Type} (f : A -> nat -> B) (i : nat) (l : list A)
  : list B :=
  match l with
  | [] => []
  | x :: l' => f x i :: mapi_from f (S i) l'
  end.

(** [seeds]: one request type per default name, linked to every rule of
    the table.  [now idx] is what [Date.now()] returns when the element of
    index [idx] is built. *)
Definition default_request_types (now : nat -> Z) (rules : list AuditRule.t)
  : list RequestType.t :=
  let allRuleIds := map AuditRule.id rules in
  mapi_from
    (fun name idx =>
       {| RequestType.id :=
            "rt_" ++ decimal (now idx) ++ "_" ++ decimal (Z.of_nat idx);
          RequestType.name := name;
          RequestType.linkedRuleIds := Some allRuleIds |})
    0%nat DEFAULT_REQUEST_TYPES_LIST.

(** The seeding step of [db.init]: an empty table of request types is
    filled with the seeds. *)
Definition seed_request_types (now : nat -> Z) (db : Tables) : Tables :=
  if (List.length (request_types_table db) =? 0)%nat then
    {| rules_table := rules_table db;
       request_types_table := default_request_types now (rules_table db) |}
  else db.

(** Seeding followed by the migration, as [db.init] runs them. *)
Definition init_request_types (now : nat -> Z) (db : Tables) : Tables :=
  migrate_request_types (seed_request_types now db).

(** ** The settings page: rules *)

(** [r.id === id ? { ...r, enabled: !r.enabled } : r] *)
Definition toggle_rule (id : string) (r : AuditRule.t) : AuditRule.t :=
  if (AuditRule.id r =? id)%string then
    {| AuditRule.id := AuditRule.id r; AuditRule.name := AuditRule.name r;
       AuditRule.type := AuditRule.type r; AuditRule.value := AuditRule.value r;
       AuditRule.enabled := negb (AuditRule.enabled r);
       AuditRule.description := AuditRule.description r;
       AuditRule.receiptType := AuditRule.receiptType r;
       AuditRule.linkedRequestType := AuditRule.linkedRequestType r |}
  else r.

Definition handleToggle (readOnly : bool) (id : string) (st : Settings)
  : Settings :=
  if readOnly then st
  else
    {| rules := map (toggle_rule id) (rules st);
       requestTypes := requestTypes st;
       isAddingRule := isAddingRule st;
       editingRuleId := editingRuleId st |}.

(** [{ ...rt, linkedRuleIds: [...(rt.linkedRuleIds || []), newId] }] *)
Definition link_new (newId : string) (rt : RequestType.t) : RequestType.t :=
  {| RequestType.id := RequestType.id rt;
     RequestType.name := RequestType.name rt;
     RequestType.linkedRuleIds :=
       Some (match RequestType.linkedRuleIds rt with
             | Some ids => ids
             | None => []
             end ++ [newId])%list |}.

(** [s || d] on a string. *)
Definition or_default (s d : string) : string :=
  if Js.truthy s then s else d.

(** An element of [PRESET_RULES]: a rule without id and [enabled]. *)
Module Preset.
Record t := {
  name : string;
  type : string;
  value : RuleValue;
  description : string;
  receiptType : option string
}.
End Preset.

(** [handleAddPreset(preset)]; [newId] is the id the handler builds from
    the clock and a random suffix. *)
Definition handleAddPreset (readOnly : bool) (newId : string)
           (preset : Preset.t) (st : Settings) : Settings :=
  if readOnly then st
  else
    let rule :=
      {| AuditRule.id := newId; AuditRule.name := Preset.name preset;
         AuditRule.type := Preset.type preset;
         AuditRule.value := Preset.value preset;
         AuditRule.enabled := true;
         AuditRule.description := Preset.description preset;
         AuditRule.receiptType :=
           Some (or_default (Js.or_empty (Preset.receiptType preset)) "ALL");
         AuditRule.linkedRequestType := None |} in
    {| rules := (rules st ++ [rule])%list;
       requestTypes := map (link_new newId) (requestTypes st);
       isAddingRule := false;
       editingRuleId := editingRuleId st |}.

(** The form of the rule editor.  Declared [Partial<AuditRule>]; every
    state the page gives it (the blank form, a copy of a rule, a form with
    one field replaced by the text of an input) has the fields below. *)
Module NewRule.
Record t := {
  name : string;
  type : string;
  value : RuleValue;
  description : string;
  receiptType : option string
}.
End NewRule.

(** The form after a save or a cancel. *)
Definition blank_rule : NewRule.t :=
  {| NewRule.name := ""; NewRule.type := RuleType.MAX_AMOUNT;
     NewRule.value := VStr ""; NewRule.description := "";
     NewRule.receiptType := Some "ALL" |}.

Definition CUSTOM_RULE_DESCRIPTION : string := "自定义规则".

(** [newRule.value === ''] *)
Definition value_is_empty (v : RuleValue) : bool :=
  match v with
  | VStr s => (s =? "")%string
  | VNum _ => false
  end.

(** The rule an edit writes over [r]. *)
Definition edited_rule (newRule : NewRule.t) (r : AuditRule.t) : AuditRule.t :=
  {| AuditRule.id := AuditRule.id r; AuditRule.name := NewRule.name newRule;
     AuditRule.type := NewRule.type newRule;
     AuditRule.value := NewRule.value newRule;
     AuditRule.enabled := AuditRule.enabled r;
     AuditRule.description := NewRule.description newRule;
     AuditRule.receiptType :=
       Some (or_default (Js.or_empty (NewRule.receiptType newRule)) "ALL");
     AuditRule.linkedRequestType := AuditRule.linkedRequestType r |}.

(** The rule a creation appends. *)
Definition created_rule (newId : string) (newRule : NewRule.t) : AuditRule.t :=
  {| AuditRule.id := newId; AuditRule.name := NewRule.name newRule;
     AuditRule.type := or_default (NewRule.type newRule) RuleType.MAX_AMOUNT;
     AuditRule.value := NewRule.value newRule;
     AuditRule.enabled := true;
     AuditRule.description :=
       or_default (NewRule.description newRule) CUSTOM_RULE_DESCRIPTION;
     AuditRule.receiptType :=
       Some (or_default (Js.or_empty (NewRule.receiptType newRule)) "ALL");
     AuditRule.linkedRequestType := None |}.

(** [handleSaveRule()]: the settings and the form afterwards; [now] is
    what [Date.now()] returns. *)
Definition handleSaveRule (readOnly : bool) (now : Z) (newRule : NewRule.t)
           (st : Settings) : Settings * NewRule.t :=
  if readOnly then (st, newRule)
  else if negb (Js.truthy (NewRule.name newRule))
          || value_is_empty (NewRule.value newRule) then (st, newRule)
  else
    match editingRuleId st with
    | Some e =>
        if Js.truthy e then
          ({| rules :=
                map (fun r => if (AuditRule.id r =? e)%string
                              then edited_rule newRule r else r) (rules st);
              requestTypes := requestTypes st;
              isAddingRule := false;
              editingRuleId := None |}, blank_rule)
        else
          ({| rules := (rules st ++ [created_rule (decimal now) newRule])%list;
              requestTypes := map (link_new (decimal now)) (requestTypes st);
              isAddingRule := false;
              editingRuleId := editingRuleId st |}, blank_rule)
    | None =>
        ({| rules := (rules st ++ [created_rule (decimal now) newRule])%list;
            requestTypes := map (link_new (decimal now)) (requestTypes st);
            isAddingRule := false;
            editingRuleId := editingRuleId st |}, blank_rule)
    end.

(** ** The settings page: request types *)

(** [handleAddRequestType()]: the request types and the text of the input
    afterwards.  [trim] is [String.prototype.trim]. *)
Definition handleAddRequestType (trim : string -> string) (readOnly : bool)
           (now : Z) (rules : list AuditRule.t) (newRequestType : string)
           (requestTypes : list RequestType.t)
  : list RequestType.t * string :=
  if readOnly || negb (Js.truthy (trim newRequestType))
  then (requestTypes, newRequestType)
  else if existsb (fun rt => (RequestType.name rt =? trim newRequestType)%string)
                  requestTypes
  then (requestTypes, newRequestType)
  else
    let newType :=
      {| RequestType.id := "rt_" ++ decimal now;
         RequestType.name := trim newRequestType;
         RequestType.linkedRuleIds := Some (map AuditRule.id rules) |} in
    ((requestTypes ++ [newType])%list, "").

Definition handleDeleteRequestType (readOnly confirmed : bool) (id : string)
           (requestTypes : list RequestType.t) : list RequestType.t :=
  if readOnly then requestTypes
  else if confirmed then
    filter (fun t => negb (RequestType.id t =? id)%string) requestTypes
  else requestTypes.

(** The state of the editor of a request type. *)
Record TypeEditor := {
  editingTypeId : option string;
  editTypeName : string;
  editTypeRules : list string;
  ruleSearchTerm : string
}.

Definition startEditType (readOnly : bool) (type : RequestType.t)
           (ed : TypeEditor) : TypeEditor :=
  if readOnly then ed
  else
    {| editingTypeId := Some (RequestType.id type);
       editTypeName := RequestType.name type;
       editTypeRules := match RequestType.linkedRuleIds type with
                        | Some ids => ids
                        | None => []
                        end;
       ruleSearchTerm := "" |}.

(** [toggleTypeRule(ruleId)] as the updater of [editTypeRules]. *)
Definition toggleTypeRule (ruleId : string) (prev : list string)
  : list string :=
  if Js.array_includes prev ruleId
  then filter (fun id => negb (id =? ruleId)%string) prev
  else (prev ++ [ruleId])%list.

(** [newSet.add(id)] on a set kept in insertion order. *)
Definition Set_add (s : list string) (id : string) : list string :=
  if Js.array_includes s id then s else (s ++ [id])%list.

(** [new Set(l)] *)
Definition Set_of (l : list string) : list string := fold_left Set_add l [].

(** The ids that [toggleAllVisibleRules] takes as visible: the rules whose
    name contains the search term, letter case apart. *)
Definition visibleRuleIds (host : Js.Host) (rules : list AuditRule.t)
           (ruleSearchTerm : string) : list string :=
  map AuditRule.id
      (filter (fun r => Js.includes (Js.toLowerCase host (AuditRule.name r))
                                    (Js.toLowerCase host ruleSearchTerm))
              rules).

(** [toggleAllVisibleRules()] as a function of [editTypeRules]. *)
Definition toggleAllVisibleRules (host : Js.Host) (rules : list AuditRule.t)
           (ruleSearchTerm : string) (editTypeRules : list string)
  : list string :=
  let visible := visibleRuleIds host rules ruleSearchTerm in
  let allVisibleSelected :=
    forallb (fun id => Js.array_includes editTypeRules id) visible in
  if allVisibleSelected then
    filter (fun id => negb (Js.array_includes visible id)) editTypeRules
  else
    fold_left Set_add visible (Set_of editTypeRules).

(** [saveEditType(id)]: the request types and the editor afterwards. *)
Definition saveEditType (trim : string -> string) (id : string)
           (requestTypes : list RequestType.t) (ed : TypeEditor)
  : list RequestType.t * TypeEditor :=
  if negb (Js.truthy (trim (editTypeName ed))) then (requestTypes, ed)
  else if existsb
            (fun rt => (RequestType.name rt =? trim (editTypeName ed))%string
                       && negb (RequestType.id rt =? id)%string)
            requestTypes
  then (requestTypes, ed)
  else
    (map (fun t => if (RequestType.id t =? id)%string then
                     {| RequestType.id := RequestType.id t;
                        RequestType.name := trim (editTypeName ed);
                        RequestType.linkedRuleIds := Some (editTypeRules ed) |}
                   else t) requestTypes,
     {| editingTypeId := None; editTypeName := ""; editTypeRules := [];
        ruleSearchTerm := ruleSearchTerm ed |}).

(** ** The application: status updates *)

Definition privileged (u : User.t) : bool :=
  match User.role u with
  | UserRole.AUDITOR | UserRole.ADMIN => true
  | UserRole.EMPLOYEE => false
  end.

Definition actionText (newStatus : RequestStatus.t) : string :=
  match newStatus with
  | RequestStatus.APPROVED => "批准申请"
  | RequestStatus.REJECTED => "拒绝申请"
  | RequestStatus.WITHDRAWN => "撤回申请"
  | _ => "更新状态"
  end.

Definition HIGH_RISK_NOTE : string := "高风险申请已人工复核处理".

(** The automatic comment: empty unless an auditor or an administrator
    approves or rejects a request whose score is above 50. *)
Definition auto_note (currentUser : User.t) (req : ReimbursementRequest.t)
           (newStatus : RequestStatus.t) : string :=
  if privileged currentUser
     && (50 <? AuditResult.score (ReimbursementRequest.auditResult req))
     && (RequestStatus.eqb newStatus RequestStatus.APPROVED
         || RequestStatus.eqb newStatus RequestStatus.REJECTED)
  then HIGH_RISK_NOTE else "".

Definition newline : string := String (ascii_of_nat 10) "".

(** [updatedReq]; [t1] and [t2] are the two readings of the clock, for the
    history entry and for [processedAt]. *)
Definition updated_request (currentUser : User.t) (t1 t2 : string)
           (newStatus : RequestStatus.t) (req : ReimbursementRequest.t)
  : ReimbursementRequest.t :=
  let note := auto_note currentUser req newStatus in
  let historyEntry :=
    {| RequestHistoryEntry.timestamp := t1;
       RequestHistoryEntry.actorName := User.name currentUser;
       RequestHistoryEntry.action := actionText newStatus;
       RequestHistoryEntry.status := newStatus;
       RequestHistoryEntry.note := if Js.truthy note then Some note else None |} in
  {| ReimbursementRequest.id := ReimbursementRequest.id req;
     ReimbursementRequest.employeeId := ReimbursementRequest.employeeId req;
     ReimbursementRequest.employeeName := ReimbursementRequest.employeeName req;
     ReimbursementRequest.submissionDate :=
       ReimbursementRequest.submissionDate req;
     ReimbursementRequest.receiptImage := ReimbursementRequest.receiptImage req;
     ReimbursementRequest.data := ReimbursementRequest.data req;
     ReimbursementRequest.requestType := ReimbursementRequest.requestType req;
     ReimbursementRequest.status := newStatus;
     ReimbursementRequest.auditResult := ReimbursementRequest.auditResult req;
     ReimbursementRequest.comments :=
       if Js.truthy note then
         match ReimbursementRequest.comments req with
         | Some c => if Js.truthy c then Some (c ++ newline ++ note)
                     else Some note
         | None => Some note
         end
       else ReimbursementRequest.comments req;
     ReimbursementRequest.processedBy := Some (User.name currentUser);
     ReimbursementRequest.processedAt := Some t2;
     ReimbursementRequest.history :=
       Some (match ReimbursementRequest.history req with
             | Some h => h
             | None => []
             end ++ [historyEntry])%list |}.

(** [handleStatusUpdate(id, newStatus)] on the list of requests the page
    holds. *)
Definition handleStatusUpdate (currentUser : User.t) (t1 t2 : string)
           (id : string) (newStatus : RequestStatus.t)
           (requests : list ReimbursementRequest.t)
  : list ReimbursementRequest.t :=
  match find (fun r => (ReimbursementRequest.id r =? id)%string) requests with
  | None => requests
  | Some req =>
      let updatedReq := updated_request currentUser t1 t2 newStatus req in
      map (fun r => if (ReimbursementRequest.id r =? id)%string
                    then updatedReq else r) requests
  end.

(** ** The list of requests: views and the right to decide *)





(** ** The upload page: which field a violation belongs to *)

Inductive Field : Type := merchantName | totalAmount | date | category.

(** The tests inside the [find] of [getFieldValidation]. *)
Definition field_of_rule (field : Field) (rule : AuditRule.t) : bool :=
  match field with
  | totalAmount => (AuditRule.type rule =? RuleType.MAX_AMOUNT)%string
  | category => (AuditRule.type rule =? RuleType.FORBIDDEN_CATEGORY)%string
  | date => (AuditRule.type rule =? RuleType.WEEKEND_BAN)%string
  | merchantName => (AuditRule.type rule =? RuleType.REQUIRED_FIELD)%string
  end.

(** [rules.find(r => r.id === id)] *)
Definition rule_by_id (rules : list AuditRule.t) (id : string)
  : option AuditRule.t :=
  find (fun r => (AuditRule.id r =? id)%string) rules.

(** [getFieldValidation(field)]: [isError] and [message]; the violations
    are absent when no item is active or the item has none recorded. *)
Definition getFieldValidation (rules : list AuditRule.t)
           (auditViolations : option (list string)) (field : Field)
  : bool * option string :=
  match auditViolations with
  | None => (false, None)
  | Some ids =>
      let violationRuleId :=
        find (fun id => match rule_by_id rules id with
                        | None => false
                        | Some rule => field_of_rule field rule
                        end) ids in
      match violationRuleId with
      | Some vid =>
          if Js.truthy vid then
            (true, option_map AuditRule.name (rule_by_id rules vid))
          else (false, None)
      | None => (false, None)
      end
  end.

(** Tables of a first start: the sample catalog and no request type. *)
Definition fresh_tables : Tables :=
  {| rules_table := catalog; request_types_table := [] |}.

(** A clock that advances by one millisecond per reading. *)
Definition sample_clock (idx : nat) : Z := 1704067200000 + Z.of_nat idx.

(** ** Vocabulary of the further properties *)

(** The last character of a string. *)
Fixpoint last_char (s : string) : option ascii :=
  match s with
  | EmptyString => None
  | String c EmptyString => Some c
  | String _ s' => last_char s'
  end.

(** [rt.linkedRuleIds || []] *)
Definition links_or_empty (rt : RequestType.t) : list string :=
  match RequestType.linkedRuleIds rt with
  | Some ids => ids
  | None => []
  end.

(** Every id a request type links is the id of a rule of the catalog. *)
Definition links_valid (rules : list AuditRule.t)
           (requestTypes : list RequestType.t) : Prop :=
  forall rt i, In rt requestTypes -> In i (links_or_empty rt) ->
               In i (map AuditRule.id rules).

(** A preset and a filled form for the examples. *)
Definition preset_taxi : Preset.t :=
  {| Preset.name := "taxi limit"; Preset.type := RuleType.MAX_AMOUNT;
     Preset.value := VNum 200%float; Preset.description := "";
     Preset.receiptType := Some "Taxi" |}.

Definition form_filled : NewRule.t :=
  {| NewRule.name := "small purchases"; NewRule.type := RuleType.MAX_AMOUNT;
     NewRule.value := VStr "500"; NewRule.description := "";
     NewRule.receiptType := None |}.

(** Removal of the blanks at both ends, for the examples. *)
Fixpoint trim_left (s : string) : string :=
  match s with
  | String c s' => if (c =? " ")%char then trim_left s' else s
  | EmptyString => EmptyString
  end.

Fixpoint rev_string (acc s : string) : string :=
  match s with
  | EmptyString => acc
  | String c s' => rev_string (String c acc) s'
  end.

Definition trim_spaces (s : string) : string :=
  rev_string "" (trim_left (rev_string "" (trim_left s))).

(** [req.history || []] *)
Definition history_or_empty (req : ReimbursementRequest.t)
  : list RequestHistoryEntry.t :=
  match ReimbursementRequest.history req with
  | Some h => h
  | None => []
  end.

(** Users and requests for the examples. *)
Definition user_employee : User.t :=
  {| User.id := "u1"; User.name := "Zhang"; User.role := UserRole.EMPLOYEE;
     User.avatar := "ZS" |}.

Definition user_auditor : User.t :=
  {| User.id := "u2"; User.name := "Li"; User.role := UserRole.AUDITOR;
     User.avatar := "LS" |}.

Definition mkRequest (i owner : string) (res : AuditResult.t)
  : ReimbursementRequest.t :=
  {| ReimbursementRequest.id := i;
     ReimbursementRequest.employeeId := owner;
     ReimbursementRequest.employeeName := owner;
     ReimbursementRequest.submissionDate := "2024-01-08T09:00:00.000Z";
     ReimbursementRequest.receiptImage := "";
     ReimbursementRequest.data := receipt_sat;
     ReimbursementRequest.requestType := "Travel";
     ReimbursementRequest.status := RequestStatus.PENDING;
     ReimbursementRequest.auditResult := res;
     ReimbursementRequest.comments := None;
     ReimbursementRequest.processedBy := None;
     ReimbursementRequest.processedAt := None;
     ReimbursementRequest.history := None |}.

Definition requests_sample : list ReimbursementRequest.t :=
  [mkRequest "q1" "u1" (evaluateRules hostUTC receipt_sat catalog None);
   mkRequest "q2" "u2" (evaluateRules hostUTC receipt_sat catalog (Some []));
   mkRequest "q3" "u1" (evaluateRules hostUTC receipt_sat catalog
                                      (Some ["r3"]))].

(** * Properties *)

(** ** The string built-ins *)

Lemma prefix_app (t s : string) :
  prefix t s = true <-> exists post, s = (t ++ post)%string.
Proof.
  revert s; induction t as [|c t IH]; intros s.
  - split; [intros _; now exists s | intros _; now destruct s].
  - destruct s as [|d s]; simpl.
    + split; [discriminate | intros [post H]; discriminate].
    + destruct (ascii_dec c d) as [->|Hcd].
      * rewrite IH; split; intros [post H]; exists post.
        -- now rewrite H.
        -- now injection H.
      * split; [discriminate|].
        intros [post H]; injection H as H1 H2; congruence.
Qed.

(** [includes s t] holds exactly when [t] occurs somewhere in [s]. *)
Lemma includes_unfold (s t : string) :
  Js.includes s t =
  prefix t s ||
  match s with
  | EmptyString => false
  | String _ s' => Js.includes s' t
  end.
Proof. now destruct s. Qed.

(** [includes s t] holds exactly when [t] occurs somewhere in [s]. *)
Lemma includes_occurs (s t : string) :
  Js.includes s t = true <-> exists pre post, s = (pre ++ t ++ post)%string.
Proof.
  induction s as [|c s IH]; rewrite includes_unfold.
  - rewrite orb_false_r, prefix_app; split.
    + intros [post H]; now exists "", post.
    + intros [pre [post H]]; destruct pre; [now exists post | discriminate].
  - rewrite orb_true_iff, prefix_app, IH; split.
    + intros [[post H]|[pre [post H]]].
      * now exists "", post.
      * exists (String c pre), post; simpl; now rewrite H.
    + intros [pre [post H]]; destruct pre as [|d pre]; simpl in H.
      * left; now exists post.
      * right; injection H as _ H; now exists pre, post.
Qed.

Lemma array_includes_In (l : list string) (x : string) :
  Js.array_includes l x = true <-> In x l.
Proof.
  unfold Js.array_includes; rewrite existsb_exists; split.
  - intros [y [Hy E]]; apply String.eqb_eq in E; now subst.
  - intros H; exists x; split; [assumption | apply String.eqb_refl].
Qed.

(** ** The cases of the [switch] *)

Lemma violation_max_amount host data r :
  AuditRule.type r = RuleType.MAX_AMOUNT ->
  violation host data r
  = PrimFloat.ltb (Number host (AuditRule.value r))
                  (ReceiptData.totalAmount data).
Proof. intros E; unfold violation; now rewrite E. Qed.

Lemma violation_forbidden_category host data r :
  AuditRule.type r = RuleType.FORBIDDEN_CATEGORY ->
  violation host data r
  = Js.truthy (ReceiptData.category data)
    && Js.includes (Js.toLowerCase host (ReceiptData.category data))
         (Js.toLowerCase host (String_ host (AuditRule.value r))).
Proof. intros E; unfold violation; now rewrite E. Qed.

Lemma violation_weekend_ban host data r :
  AuditRule.type r = RuleType.WEEKEND_BAN ->
  violation host data r = weekend_violation host (ReceiptData.date data).
Proof. intros E; unfold violation; now rewrite E. Qed.

Lemma violation_unhandled host data r :
  unhandled r = true -> violation host data r = false.
Proof.
  unfold unhandled, known_kind, violation; intros H.
  destruct (String.eqb_spec (AuditRule.type r) RuleType.MAX_AMOUNT) as [E|_];
    [rewrite E in H; discriminate|].
  destruct (String.eqb_spec (AuditRule.type r) RuleType.FORBIDDEN_CATEGORY)
    as [E|_]; [rewrite E in H; discriminate|].
  destruct (String.eqb_spec (AuditRule.type r) RuleType.WEEKEND_BAN) as [E|_];
    [rewrite E in H; discriminate|].
  destruct (AuditRule.type r =? RuleType.REQUIRED_FIELD)%string;
    [|reflexivity].
  simpl in H; unfold value_is.
  destruct (AuditRule.value r) as [n|s]; [reflexivity|].
  now destruct (s =? "Merchant")%string.
Qed.

Lemma truthy_nonempty (s : string) : Js.truthy s = true <-> s <> "".
Proof.
  unfold Js.truthy; destruct (String.eqb_spec s ""); simpl; split;
    intros; congruence.
Qed.

(** ** The loop of [evaluateRules] *)

Lemma weight_or_default_table (k : string) : weight_or_default k = kind_weight k.
Proof.
  unfold weight_or_default, kind_weight, RULE_WEIGHTS, RuleType.FORBIDDEN_CATEGORY,
    RuleType.MAX_AMOUNT, RuleType.WEEKEND_BAN, RuleType.REQUIRED_FIELD.
  repeat match goal with |- context [(?a =? ?b)%string] =>
    destruct (a =? b)%string end; reflexivity.
Qed.

Lemma clamp100_min_max (x : Z) : Z.min (Z.max x 0) 100 = clamp100 x.
Proof.
  unfold clamp100.
  destruct (Z.ltb_spec x 0); destruct (Z.ltb_spec 100 x); lia.
Qed.

Lemma clamp100_range (x : Z) : 0 <= clamp100 x <= 100.
Proof.
  unfold clamp100.
  destruct (Z.ltb_spec x 0); destruct (Z.ltb_spec 100 x); lia.
Qed.

Lemma kind_weight_pos (k : string) : 0 < kind_weight k.
Proof.
  unfold kind_weight.
  repeat match goal with |- context [(?a =? ?b)%string] =>
    destruct (a =? b)%string end; lia.
Qed.

Section Loop.

Variable host : Js.Host.
Variable data : ReceiptData.t.
Variable activeRuleIds : option (list string).

Lemma loop_body_hit (st : LoopState) (r : AuditRule.t) :
  loop_body host data activeRuleIds st r =
  if hit host data activeRuleIds r then
    {| triggeredRules := triggeredRules st ++ [AuditRule.id r];
       totalRiskScore :=
         totalRiskScore st + weight_or_default (AuditRule.type r) |}
  else st.
Proof.
  unfold loop_body, hit.
  destruct (not_activated activeRuleIds r); simpl; [reflexivity|].
  destruct (wrong_receipt_type data r); simpl; [reflexivity|].
  reflexivity.
Qed.

(** Running the loop from any state appends the ids of the rules that
    hit, in order, and adds their weights. *)
Lemma loop_run (l : list AuditRule.t) : forall st,
  fold_left (loop_body host data activeRuleIds) l st =
  {| triggeredRules :=
       triggeredRules st ++ map AuditRule.id (filter (hit host data activeRuleIds) l);
     totalRiskScore :=
       totalRiskScore st
       + sumZ (map (fun r => weight_or_default (AuditRule.type r))
                   (filter (hit host data activeRuleIds) l)) |}.
Proof.
  induction l as [|r l IH]; intros st; simpl.
  - rewrite app_nil_r, Z.add_0_r; now destruct st.
  - rewrite IH, loop_body_hit.
    destruct (hit host data activeRuleIds r); simpl; [|reflexivity].
    rewrite <- app_assoc; simpl; f_equal; lia.
Qed.

Lemma filter_enabled_hit (l : list AuditRule.t) :
  filter (hit host data activeRuleIds) (filter AuditRule.enabled l)
  = filter (fires host data activeRuleIds) l.
Proof.
  induction l as [|r l IH]; simpl; [reflexivity|].
  assert (Hf : fires host data activeRuleIds r
               = AuditRule.enabled r && hit host data activeRuleIds r)
    by (unfold fires, hit; now rewrite !andb_assoc).
  rewrite Hf.
  destruct (AuditRule.enabled r); simpl; [now rewrite IH | exact IH].
Qed.

(** The ids reported are those of the rules that fire, in catalog order. *)
Lemma evaluateRules_triggered (rules : list AuditRule.t) :
  AuditResult.triggeredRules (evaluateRules host data rules activeRuleIds)
  = map AuditRule.id (filter (fires host data activeRuleIds) rules).
Proof.
  unfold evaluateRules; simpl.
  rewrite loop_run; simpl.
  now rewrite filter_enabled_hit.
Qed.

(** The score is the clamped sum of the weights of the rules that fire. *)
Lemma evaluateRules_score (rules : list AuditRule.t) :
  AuditResult.score (evaluateRules host data rules activeRuleIds)
  = clamp100 (sumZ (map (fun r => kind_weight (AuditRule.type r))
                        (filter (fires host data activeRuleIds) rules))).
Proof.
  unfold evaluateRules; simpl.
  rewrite loop_run; simpl.
  rewrite filter_enabled_hit, clamp100_min_max.
  f_equal; f_equal.
  apply map_ext; intros r; apply weight_or_default_table.
Qed.

Lemma evaluateRules_passed (rules : list AuditRule.t) :
  AuditResult.passed (evaluateRules host data rules activeRuleIds)
  = (List.length
       (AuditResult.triggeredRules
          (evaluateRules host data rules activeRuleIds)) =? 0)%nat.
Proof. reflexivity. Qed.

(** Two results agree as soon as the same rules fire. *)
Lemma evaluateRules_eta (rules : list AuditRule.t) :
  evaluateRules host data rules activeRuleIds =
  let fired := filter (fires host data activeRuleIds) rules in
  {| AuditResult.passed := (List.length (map AuditRule.id fired) =? 0)%nat;
     AuditResult.triggeredRules := map AuditRule.id fired;
     AuditResult.score :=
       clamp100 (sumZ (map (fun r => kind_weight (AuditRule.type r)) fired)) |}.
Proof.
  pose proof (evaluateRules_triggered rules) as Ht.
  pose proof (evaluateRules_score rules) as Hs.
  pose proof (evaluateRules_passed rules) as Hp.
  destruct (evaluateRules host data rules activeRuleIds) as [p t s].
  simpl in *; subst; reflexivity.
Qed.

End Loop.

(** ** Lists of rules with distinct ids *)

Lemma NoDup_map_In_inj {A B : Type} (f : A -> B) (l : list A) :
  NoDup (map f l) ->
  forall x y, In x l -> In y l -> f x = f y -> x = y.
Proof.
  induction l as [|a l IH]; simpl; intros Hnd x y Hx Hy E; [contradiction|].
  inversion Hnd as [|? ? Hna Hnd']; subst.
  destruct Hx as [->|Hx], Hy as [->|Hy]; auto.
  - exfalso; apply Hna; rewrite E; now apply in_map.
  - exfalso; apply Hna; rewrite <- E; now apply in_map.
Qed.

Create HintDb subseq.
#[local] Hint Constructors Subseq : subseq.

Lemma Subseq_map_filter {A B : Type} (f : A -> B) (p : A -> bool)
      (l : list A) :
  Subseq (map f (filter p l)) (map f l).
Proof.
  induction l as [|a l IH]; simpl; [auto with subseq|].
  destruct (p a); simpl; auto with subseq.
Qed.

Lemma Subseq_In {A : Type} (l1 l2 : list A) :
  Subseq l1 l2 -> forall x, In x l1 -> In x l2.
Proof.
  induction 1; simpl; intros y Hy; auto.
  destruct Hy; auto.
Qed.

Lemma Subseq_NoDup {A : Type} (l1 l2 : list A) :
  Subseq l1 l2 -> NoDup l2 -> NoDup l1.
Proof.
  induction 1 as [|x l1 l2 H IH|x l1 l2 H IH]; intros Hnd.
  - constructor.
  - inversion Hnd; auto.
  - inversion Hnd as [|? ? Hn Hnd']; subst; constructor; auto.
    intros Hin; apply Hn; eapply Subseq_In; eauto.
Qed.

Lemma in_triggered host data active rules i :
  In i (AuditResult.triggeredRules (evaluateRules host data rules active)) <->
  exists r, In r rules /\ AuditRule.id r = i /\ fires host data active r = true.
Proof.
  rewrite evaluateRules_triggered, in_map_iff; split.
  - intros [r [E H]]; apply filter_In in H; destruct H; eauto.
  - intros [r [H [E F]]]; exists r; split; [assumption|].
    apply filter_In; auto.
Qed.

(** In a catalog with distinct ids a rule is reported exactly when it
    fires. *)
Lemma triggered_iff_fires host data active rules r :
  NoDup (map AuditRule.id rules) -> In r rules ->
  (In (AuditRule.id r)
      (AuditResult.triggeredRules (evaluateRules host data rules active))
   <-> fires host data active r = true).
Proof.
  intros Hnd Hr; rewrite in_triggered; split.
  - intros [r' [Hr' [E F]]].
    now rewrite <- (NoDup_map_In_inj AuditRule.id rules Hnd r' r Hr' Hr E).
  - intros F; eauto.
Qed.

(** For an enabled, activated rule of an applicable receipt type, firing
    is the outcome of the [switch]. *)
Lemma fires_candidate host data active r :
  AuditRule.enabled r = true ->
  not_activated active r = false ->
  wrong_receipt_type data r = false ->
  fires host data active r = violation host data r.
Proof.
  intros E A W; unfold fires; now rewrite E, A, W.
Qed.

(** Turns the goal, about the id of a candidate rule being reported, into
    one about the outcome of the [switch] for that rule. *)
Ltac reported_to_violation Hids Hr Henabled Hactive Happlies :=
  rewrite (triggered_iff_fires _ _ _ _ _ Hids Hr);
  rewrite (fires_candidate _ _ _ _ Henabled Hactive Happlies).

(** A rule that fires has one of the four kinds of the [switch], so the
    default weight is never the one that is added. *)
Lemma fires_known_kind host data active r :
  fires host data active r = true -> known_kind (AuditRule.type r) = true.
Proof.
  intros F; destruct (unhandled r) eqn:U.
  - unfold fires in F; rewrite (violation_unhandled host data r U) in F.
    now rewrite andb_false_r in F.
  - unfold unhandled in U; apply orb_false_elim in U; destruct U as [U _].
    now apply negb_false_iff in U.
Qed.

(** In a catalog with distinct ids the rules that fire are the rules whose
    id is reported. *)
Lemma fired_are_reported host data active rules :
  NoDup (map AuditRule.id rules) ->
  filter (fires host data active) rules
  = filter (fun r =>
              Js.array_includes
                (AuditResult.triggeredRules
                   (evaluateRules host data rules active))
                (AuditRule.id r)) rules.
Proof.
  intros Hnd; apply filter_ext_in; intros r Hr.
  pose proof (triggered_iff_fires host data active rules r Hnd Hr) as T.
  rewrite <- array_includes_In in T.
  destruct (fires host data active r), (Js.array_includes _ _); intuition.
Qed.

Lemma catalog_ids_distinct : NoDup (map AuditRule.id catalog).
Proof. simpl; repeat constructor; simpl; intuition discriminate. Qed.

(** ** Verdict, score and selection of rules *)

(** C1: for every host, receipt, rule catalog and optional list of active
    ids, the result of [evaluateRules] has [passed] equal to the test
    [triggeredRules.length === 0]; so it passes exactly when no rule id is
    reported. *)
Theorem passed_iff_none_triggered
        (host : Js.Host) (data : ReceiptData.t) (rules : list AuditRule.t)
        (activeRuleIds : option (list string)) :
  let res := evaluateRules host data rules activeRuleIds in
  AuditResult.passed res
  = (List.length (AuditResult.triggeredRules res) =? 0)%nat
  /\ (AuditResult.passed res = true <-> AuditResult.triggeredRules res = []).
Proof.
  intros res; split; [reflexivity|].
  unfold res; rewrite evaluateRules_passed.
  destruct (AuditResult.triggeredRules _); simpl; split;
    intros; try reflexivity; discriminate.
Qed.

(** C2: the score is the sum of the weights of the triggered rules, by
    kind (FORBIDDEN_CATEGORY 100, MAX_AMOUNT 60, WEEKEND_BAN 30,
    REQUIRED_FIELD 20, any other kind 10), clamped to the interval from 0
    to 100, where the triggered rules are the rules whose ids are reported,
    in catalog order (with distinct ids: the rules of the catalog whose id
    is in the reported list).  Every triggered rule has one of the four
    kinds of the table.  Nothing rescales the sum: two triggered rules of
    weights 60 and 100 give min(160, 100) = 100, which the engine returns
    on the sample receipt for an amount rule and a category rule. *)
Theorem score_is_clamped_weight_sum
        (host : Js.Host) (data : ReceiptData.t) (rules : list AuditRule.t)
        (activeRuleIds : option (list string)) :
  let res := evaluateRules host data rules activeRuleIds in
  let fired := filter (fires host data activeRuleIds) rules in
  let total := sumZ (map (fun r => kind_weight (AuditRule.type r)) fired) in
  AuditResult.triggeredRules res = map AuditRule.id fired
  /\ AuditResult.score res = clamp100 total
  /\ AuditResult.score res = Z.min total 100
  /\ 0 <= AuditResult.score res <= 100
  /\ Forall (fun r => known_kind (AuditRule.type r) = true) fired
  /\ (NoDup (map AuditRule.id rules) ->
      fired = filter (fun r => Js.array_includes
                                 (AuditResult.triggeredRules res)
                                 (AuditRule.id r)) rules)
  /\ (forall r1 r2, fired = [r1; r2] ->
        kind_weight (AuditRule.type r1) = 60 ->
        kind_weight (AuditRule.type r2) = 100 ->
        AuditResult.score res = Z.min 160 100)
  /\ evaluateRules hostUTC receipt_sat [rule_max; rule_forbid] None
     = {| AuditResult.passed := false;
          AuditResult.triggeredRules := ["r1"; "r2"];
          AuditResult.score := 100 |}.
Proof.
  intros res fired total.
  assert (Hs : AuditResult.score res = clamp100 total)
    by apply evaluateRules_score.
  assert (Hpos : 0 <= total).
  { unfold total; clear; induction fired as [|r l IH]; simpl; [lia|].
    pose proof (kind_weight_pos (AuditRule.type r)); lia. }
  repeat split.
  - apply evaluateRules_triggered.
  - exact Hs.
  - rewrite Hs; unfold clamp100.
    destruct (Z.ltb_spec total 0); destruct (Z.ltb_spec 100 total); lia.
  - rewrite Hs; apply clamp100_range.
  - rewrite Hs; apply clamp100_range.
  - apply Forall_forall; intros r Hr; apply filter_In in Hr.
    destruct Hr as [_ F]; eapply fires_known_kind; eauto.
  - intros Hnd; now apply fired_are_reported.
  - intros r1 r2 Hf H1 H2; rewrite Hs; unfold total; rewrite Hf; simpl.
    rewrite H1, H2; reflexivity.
Qed.

(** C3: leaving [activeRuleIds] out gives the same result as passing the
    ids of all the enabled rules of the catalog. *)
Theorem omitted_is_all_enabled_ids
        (host : Js.Host) (data : ReceiptData.t) (rules : list AuditRule.t) :
  evaluateRules host data rules None
  = evaluateRules host data rules
      (Some (map AuditRule.id (filter AuditRule.enabled rules))).
Proof.
  rewrite !evaluateRules_eta.
  set (ids := map AuditRule.id (filter AuditRule.enabled rules)).
  assert (E : filter (fires host data None) rules
              = filter (fires host data (Some ids)) rules).
  { apply filter_ext_in; intros r Hr; unfold fires.
    destruct (AuditRule.enabled r) eqn:En; [|reflexivity].
    simpl.
    assert (Hin : Js.array_includes ids (AuditRule.id r) = true).
    { apply array_includes_In; unfold ids; apply in_map.
      apply filter_In; auto. }
    now rewrite Hin. }
  now rewrite E.
Qed.

(** C4: in a catalog with distinct ids, every reported id is the id of an
    enabled rule of the catalog and, when a list of active ids is given
    (even an empty one), a member of that list; an empty list therefore
    reports nothing, and a disabled rule is never reported, whatever the
    list.  The reported ids come in catalog order and without repetition. *)
Theorem triggered_are_enabled_active_ordered
        (host : Js.Host) (data : ReceiptData.t) (rules : list AuditRule.t)
        (activeRuleIds : option (list string))
        (Hids : NoDup (map AuditRule.id rules)) :
  let triggered :=
    AuditResult.triggeredRules
      (evaluateRules host data rules activeRuleIds) in
  (forall i, In i triggered ->
     exists r, In r rules /\ AuditRule.id r = i
               /\ AuditRule.enabled r = true
               /\ forall ids, activeRuleIds = Some ids -> In i ids)
  /\ (activeRuleIds = Some [] -> triggered = [])
  /\ (forall r, In r rules -> AuditRule.enabled r = false ->
        ~ In (AuditRule.id r) triggered)
  /\ Subseq triggered (map AuditRule.id rules)
  /\ NoDup triggered.
Proof.
  intros triggered.
  assert (Hall : forall i, In i triggered ->
     exists r, In r rules /\ AuditRule.id r = i
               /\ AuditRule.enabled r = true
               /\ forall ids, activeRuleIds = Some ids -> In i ids).
  { intros i Hi; apply in_triggered in Hi; destruct Hi as [r [Hr [E F]]].
    exists r; repeat split; auto.
    - unfold fires in F; now destruct (AuditRule.enabled r).
    - intros ids ->; unfold fires in F.
      destruct (AuditRule.enabled r); [|discriminate]; simpl in F.
      destruct (Js.array_includes ids (AuditRule.id r)) eqn:Inc;
        [|discriminate].
      rewrite <- E; now apply array_includes_In. }
  assert (Hsub : Subseq triggered (map AuditRule.id rules)).
  { unfold triggered; rewrite evaluateRules_triggered.
    apply Subseq_map_filter. }
  repeat split.
  - exact Hall.
  - intros ->; destruct triggered as [|i t] eqn:Ht; [reflexivity|].
    destruct (Hall i (or_introl eq_refl)) as [r [_ [_ [_ Hin]]]].
    destruct (Hin [] eq_refl).
  - intros r Hr En Hin.
    apply (triggered_iff_fires host data activeRuleIds rules r Hids Hr) in Hin.
    unfold fires in Hin; rewrite En in Hin; discriminate.
  - exact Hsub.
  - eapply Subseq_NoDup; eauto.
Qed.

Lemma triggered_are_enabled_active_ordered_witness :
  NoDup (map AuditRule.id catalog)
  /\ AuditResult.triggeredRules
       (evaluateRules hostUTC receipt_sat catalog (Some ["r3"; "r1"; "r5"]))
     = ["r1"; "r3"]
  /\ Subseq
       (AuditResult.triggeredRules
          (evaluateRules hostUTC receipt_sat catalog (Some ["r3"; "r1"; "r5"])))
       (map AuditRule.id catalog).
Proof.
  pose proof catalog_ids_distinct as H.
  split; [exact H|]; split; [reflexivity|].
  exact (proj1 (proj2 (proj2 (proj2
    (triggered_are_enabled_active_ordered hostUTC receipt_sat catalog
       (Some ["r3"; "r1"; "r5"]) H))))).
Defined.

(** ** Weekend dates *)

(** The date test succeeds exactly when the date is not empty, the parser
    gives a time value, and the local day of the week of that time is
    Sunday (0) or Saturday (6). *)
Lemma weekend_violation_iff host d :
  weekend_violation host d = true <->
  d <> "" /\ exists t, Js.Date_getTime host d = Some t
                       /\ (Js.getDay host t = 0 \/ Js.getDay host t = 6).
Proof.
  unfold weekend_violation.
  destruct (Js.truthy d) eqn:T.
  - apply truthy_nonempty in T.
    destruct (Js.Date_getTime host d) as [t|].
    + rewrite orb_true_iff, !Z.eqb_eq; split.
      * intros H; split; [assumption|]; now exists t.
      * intros [_ [t' [E H]]]; now injection E as ->.
    + split; [discriminate | intros [_ [t [E _]]]; discriminate].
  - split; [discriminate|]; intros [N _].
    apply truthy_nonempty in N; congruence.
Qed.

Lemma weekend_violation_empty host : weekend_violation host "" = false.
Proof. reflexivity. Qed.

Lemma weekend_violation_unparsed host d :
  Js.Date_getTime host d = None -> weekend_violation host d = false.
Proof.
  intros E; unfold weekend_violation; rewrite E.
  now destruct (Js.truthy d).
Qed.

(** At midnight UTC a zone at or east of Greenwich is on the same calendar
    day, so the local day of the week is the UTC one. *)
Lemma getDay_midnight_east host k :
  0 <= Js.LocalTZA host (k * Js.msPerDay) < Js.msPerDay ->
  Js.getDay host (k * Js.msPerDay) = Js.getUTCDay (k * Js.msPerDay).
Proof.
  intros H; unfold Js.getDay, Js.getUTCDay, Js.WeekDay, Js.Day.
  assert (Hms : Js.msPerDay <> 0) by (unfold Js.msPerDay; lia).
  rewrite Z.div_add_l, Z.div_mul by assumption.
  now rewrite Z.div_small, Z.add_0_r.
Qed.

(** At midnight UTC a zone west of Greenwich is still on the previous
    calendar day, so the local day of the week is the one before. *)
Lemma getDay_midnight_west host k :
  - Js.msPerDay <= Js.LocalTZA host (k * Js.msPerDay) < 0 ->
  Js.getDay host (k * Js.msPerDay)
  = (Js.getUTCDay (k * Js.msPerDay) + 6) mod 7.
Proof.
  intros H; unfold Js.getDay, Js.getUTCDay, Js.WeekDay, Js.Day.
  assert (Hms : Js.msPerDay <> 0) by (unfold Js.msPerDay; lia).
  rewrite Z.div_mul by assumption.
  replace (k * Js.msPerDay + Js.LocalTZA host (k * Js.msPerDay))
    with ((k - 1) * Js.msPerDay
          + (Js.msPerDay + Js.LocalTZA host (k * Js.msPerDay))) by lia.
  rewrite Z.div_add_l by assumption.
  rewrite Z.div_small by lia.
  rewrite Z.add_mod_idemp_l by lia.
  replace (k + 4 + 6) with (k - 1 + 0 + 4 + 1 * 7) by lia.
  now rewrite Z.mod_add by lia.
Qed.

(** A calendar date is never the empty string. *)
Lemma parseCalendarDate_nonempty d ymd :
  Js.parseCalendarDate d = Some ymd -> d <> "".
Proof. intros H ->; discriminate. Qed.

(** On a host at or east of Greenwich a calendar date is flagged exactly
    when it falls on a Saturday or a Sunday. *)
Lemma weekend_violation_calendar_east host d y m dd :
  Js.parseCalendarDate d = Some (y, m, dd) ->
  0 <= Js.LocalTZA host (Js.MakeDay y m dd * Js.msPerDay) < Js.msPerDay ->
  (weekend_violation host d = true <->
   Js.getUTCDay (Js.MakeDay y m dd * Js.msPerDay) = 0
   \/ Js.getUTCDay (Js.MakeDay y m dd * Js.msPerDay) = 6).
Proof.
  intros P Z; rewrite weekend_violation_iff.
  unfold Js.Date_getTime; rewrite P.
  rewrite <- (getDay_midnight_east host _ Z); split.
  - intros [_ [t [E H]]]; now injection E as <-.
  - intros H; split; [eapply parseCalendarDate_nonempty; eauto|].
    eexists; split; [reflexivity | exact H].
Qed.

(** On a host west of Greenwich a calendar date is flagged exactly when it
    falls on a Sunday or a Monday. *)
Lemma weekend_violation_calendar_west host d y m dd :
  Js.parseCalendarDate d = Some (y, m, dd) ->
  - Js.msPerDay <= Js.LocalTZA host (Js.MakeDay y m dd * Js.msPerDay) < 0 ->
  (weekend_violation host d = true <->
   Js.getUTCDay (Js.MakeDay y m dd * Js.msPerDay) = 1
   \/ Js.getUTCDay (Js.MakeDay y m dd * Js.msPerDay) = 0).
Proof.
  intros P Z; rewrite weekend_violation_iff.
  unfold Js.Date_getTime; rewrite P.
  pose proof (getDay_midnight_west host _ Z) as G.
  assert (R : 0 <= Js.getUTCDay (Js.MakeDay y m dd * Js.msPerDay) < 7)
    by (unfold Js.getUTCDay, Js.WeekDay; apply Z.mod_pos_bound; lia).
  set (u := Js.getUTCDay (Js.MakeDay y m dd * Js.msPerDay)) in *.
  assert (Hd : (Js.getDay host (Js.MakeDay y m dd * Js.msPerDay) = 0
                \/ Js.getDay host (Js.MakeDay y m dd * Js.msPerDay) = 6)
               <-> (u = 1 \/ u = 0)).
  { rewrite G.
    assert (C : u = 0 \/ u = 1 \/ u = 2 \/ u = 3 \/ u = 4 \/ u = 5 \/ u = 6)
      by lia.
    destruct C as [->|[->|[->|[->|[->|[->| ->]]]]]]; cbn; lia. }
  rewrite <- Hd; split.
  - intros [_ [t [E H]]]; now injection E as <-.
  - intros H; split; [eapply parseCalendarDate_nonempty; eauto|].
    eexists; split; [reflexivity | exact H].
Qed.

(** C5: a weekend rule evaluated west of Greenwich.  The receipt dated
    2024-01-06, a Saturday, parses to midnight UTC of that day; on a host
    whose local time is UTC the rule is reported, and on a host five hours
    behind UTC the same receipt passes, while a receipt dated 2024-01-08, a
    Monday, is reported there. *)
Theorem weekend_ban_west_of_utc_misses_saturday :
  (exists t, Js.Date_getTime hostWest5 "2024-01-06" = Some t
             /\ Js.getUTCDay t = 6 /\ Js.getDay hostWest5 t = 5)
  /\ evaluateRules hostUTC (receipt_on "2024-01-06") [rule_weekend] None
     = {| AuditResult.passed := false;
          AuditResult.triggeredRules := ["r3"];
          AuditResult.score := 30 |}
  /\ evaluateRules hostWest5 (receipt_on "2024-01-06") [rule_weekend] None
     = {| AuditResult.passed := true;
          AuditResult.triggeredRules := [];
          AuditResult.score := 0 |}
  /\ (exists t, Js.Date_getTime hostWest5 "2024-01-08" = Some t
                /\ Js.getUTCDay t = 1 /\ Js.getDay hostWest5 t = 0)
  /\ evaluateRules hostWest5 (receipt_on "2024-01-08") [rule_weekend] None
     = {| AuditResult.passed := false;
          AuditResult.triggeredRules := ["r3"];
          AuditResult.score := 30 |}
  /\ evaluateRules hostWest5 (receipt_on "not-a-date") [rule_weekend] None
     = {| AuditResult.passed := true;
          AuditResult.triggeredRules := [];
          AuditResult.score := 0 |}.
Proof.
  split; [eexists; repeat split; reflexivity|].
  split; [vm_compute; reflexivity|].
  split; [vm_compute; reflexivity|].
  split; [eexists; repeat split; reflexivity|].
  split; vm_compute; reflexivity.
Qed.

(** ** Comparison of binary64 numbers *)

Lemma SFcompare_antisym (x y : spec_float) :
  SFcompare y x = option_map CompOpp (SFcompare x y).
Proof.
  destruct x as [sx|sx| |sx mx ex], y as [sy|sy| |sy my ey]; simpl;
    try reflexivity;
    try (destruct sx; reflexivity);
    try (destruct sy; reflexivity);
    try (destruct sx, sy; reflexivity).
  destruct sx, sy; simpl; try reflexivity;
    rewrite (Z.compare_antisym ex ey);
    destruct (ex ?= ey)%Z; simpl; try reflexivity;
    pose proof (Pos.compare_cont_antisym mx my Eq) as A; simpl in A;
    change (PosDef.Pos.compare_cont Eq my mx) with (Pos.compare_cont Eq my mx);
    rewrite <- A; now rewrite ?CompOpp_involutive.
Qed.

(** A number strictly above another is not equal to it. *)
Lemma float_gt_not_eq (a b : float) :
  PrimFloat.ltb b a = true -> PrimFloat.eqb a b = false.
Proof.
  rewrite FloatAxioms.ltb_spec, FloatAxioms.eqb_spec; unfold SFltb, SFeqb.
  rewrite (SFcompare_antisym (Prim2SF b) (Prim2SF a)).
  destruct (SFcompare (Prim2SF b) (Prim2SF a)) as [[| |]|]; simpl;
    intros; congruence.
Qed.

Lemma float_ltb_irrefl (a : float) : PrimFloat.ltb a a = false.
Proof.
  rewrite FloatAxioms.ltb_spec; unfold SFltb.
  pose proof (SFcompare_antisym (Prim2SF a) (Prim2SF a)) as H.
  destruct (SFcompare (Prim2SF a) (Prim2SF a)) as [[| |]|]; simpl in *;
    congruence.
Qed.

(** ** Amount, category and unhandled rules *)

(** C7: in a catalog with distinct ids, an enabled, activated
    [MAX_AMOUNT] rule of an applicable receipt type is reported exactly
    when the total amount is strictly greater than the rule's threshold
    [Number(rule.value)]; an amount equal to the threshold is not reported.
    With the threshold 0 the rule is reported exactly for the amounts above
    zero, and not for a zero amount. *)
Theorem max_amount_triggered_iff_above
        (host : Js.Host) (data : ReceiptData.t) (rules : list AuditRule.t)
        (activeRuleIds : option (list string)) (r : AuditRule.t)
        (Hids : NoDup (map AuditRule.id rules))
        (Hr : In r rules)
        (Henabled : AuditRule.enabled r = true)
        (Hactive : not_activated activeRuleIds r = false)
        (Happlies : wrong_receipt_type data r = false)
        (Hkind : AuditRule.type r = RuleType.MAX_AMOUNT) :
  let triggered :=
    AuditResult.triggeredRules
      (evaluateRules host data rules activeRuleIds) in
  let amount := ReceiptData.totalAmount data in
  let threshold := Number host (AuditRule.value r) in
  (In (AuditRule.id r) triggered <-> PrimFloat.ltb threshold amount = true)
  /\ (PrimFloat.eqb amount threshold = true -> ~ In (AuditRule.id r) triggered)
  /\ (AuditRule.value r = VNum 0%float ->
      (In (AuditRule.id r) triggered <-> PrimFloat.ltb 0%float amount = true)
      /\ (PrimFloat.eqb amount 0%float = true ->
          ~ In (AuditRule.id r) triggered)).
Proof.
  intros triggered amount threshold.
  assert (Hiff : In (AuditRule.id r) triggered
                 <-> PrimFloat.ltb threshold amount = true).
  { unfold triggered.
    reported_to_violation Hids Hr Henabled Hactive Happlies.
    now rewrite (violation_max_amount host data r Hkind). }
  assert (Heq : PrimFloat.eqb amount threshold = true ->
                ~ In (AuditRule.id r) triggered).
  { intros E Hin; apply Hiff in Hin.
    apply float_gt_not_eq in Hin; congruence. }
  split; [exact Hiff|]; split; [exact Heq|].
  intros Hv; unfold threshold in Hiff, Heq; rewrite Hv in Hiff, Heq.
  now split.
Qed.

Lemma max_amount_triggered_iff_above_witness :
  NoDup (map AuditRule.id catalog)
  /\ In rule_max catalog
  /\ AuditRule.enabled rule_max = true
  /\ not_activated None rule_max = false
  /\ wrong_receipt_type receipt_sat rule_max = false
  /\ AuditRule.type rule_max = RuleType.MAX_AMOUNT
  /\ (In "r1" (AuditResult.triggeredRules
                 (evaluateRules hostUTC receipt_sat catalog None))
      <-> PrimFloat.ltb 2000%float 2500%float = true).
Proof.
  pose proof catalog_ids_distinct as H.
  pose proof (or_introl eq_refl : In rule_max catalog) as Hin.
  do 6 (split; [first [exact H | exact Hin | reflexivity]|]).
  exact (proj1 (max_amount_triggered_iff_above hostUTC receipt_sat catalog
                  None rule_max H Hin eq_refl eq_refl eq_refl eq_refl)).
Defined.

(** Scenarios 1 and 2, and the threshold 0, on the sample catalog. *)
Example max_amount_scenarios :
  AuditResult.triggeredRules
    (evaluateRules hostUTC (mkReceipt "Cafe" "2024-01-08" 2500%float "Food")
                   [rule_max] None) = ["r1"]
  /\ AuditResult.triggeredRules
       (evaluateRules hostUTC (mkReceipt "Cafe" "2024-01-08" 2000%float "Food")
                      [rule_max] None) = []
  /\ AuditResult.triggeredRules
       (evaluateRules hostUTC (mkReceipt "Cafe" "2024-01-08" 0.5%float "Food")
                      [rule_zero] None) = ["r7"]
  /\ AuditResult.triggeredRules
       (evaluateRules hostUTC (mkReceipt "Cafe" "2024-01-08" 0%float "Food")
                      [rule_zero] None) = [].
Proof. repeat split; vm_compute; reflexivity. Qed.

(** C6, as the code has it: in a catalog with distinct ids, an enabled,
    activated [FORBIDDEN_CATEGORY] rule of an applicable receipt type is
    reported exactly when the category label is not empty and its
    lower-cased form contains the lower-cased token of the rule; the token
    "entertainment" is found in the label "Entertainment & Dining". *)
Theorem forbidden_category_triggered_iff
        (host : Js.Host) (data : ReceiptData.t) (rules : list AuditRule.t)
        (activeRuleIds : option (list string)) (r : AuditRule.t)
        (Hids : NoDup (map AuditRule.id rules))
        (Hr : In r rules)
        (Henabled : AuditRule.enabled r = true)
        (Hactive : not_activated activeRuleIds r = false)
        (Happlies : wrong_receipt_type data r = false)
        (Hkind : AuditRule.type r = RuleType.FORBIDDEN_CATEGORY) :
  let triggered :=
    AuditResult.triggeredRules
      (evaluateRules host data rules activeRuleIds) in
  let label := Js.toLowerCase host (ReceiptData.category data) in
  let token := Js.toLowerCase host (String_ host (AuditRule.value r)) in
  (In (AuditRule.id r) triggered <->
   ReceiptData.category data <> ""
   /\ exists pre post, label = (pre ++ token ++ post)%string)
  /\ Js.includes (ascii_lower "Entertainment & Dining")
                 (ascii_lower "entertainment") = true.
Proof.
  intros triggered label token; split; [|reflexivity].
  unfold triggered.
  reported_to_violation Hids Hr Henabled Hactive Happlies.
  rewrite (violation_forbidden_category host data r Hkind).
  now rewrite andb_true_iff, truthy_nonempty, includes_occurs.
Qed.

Lemma forbidden_category_triggered_iff_witness :
  NoDup (map AuditRule.id catalog)
  /\ In rule_forbid catalog
  /\ AuditRule.enabled rule_forbid = true
  /\ not_activated None rule_forbid = false
  /\ wrong_receipt_type receipt_sat rule_forbid = false
  /\ AuditRule.type rule_forbid = RuleType.FORBIDDEN_CATEGORY
  /\ (In "r2" (AuditResult.triggeredRules
                 (evaluateRules hostUTC receipt_sat catalog None))
      <-> "Entertainment & Dining" <> ""
          /\ exists pre post,
               "entertainment & dining"
               = (pre ++ "entertainment" ++ post)%string).
Proof.
  pose proof catalog_ids_distinct as H.
  pose proof (or_intror (or_introl eq_refl) : In rule_forbid catalog) as Hin.
  do 6 (split; [first [exact H | exact Hin | reflexivity]|]).
  exact (proj1 (forbidden_category_triggered_iff hostUTC receipt_sat catalog
                  None rule_forbid H Hin eq_refl eq_refl eq_refl eq_refl)).
Defined.

(** C6 as it is worded fails on an empty label: the empty token is
    contained in the empty label, whatever the case, and the rule, enabled,
    activated and applicable, is not reported. *)
Lemma forbidden_category_empty_label_counterexample :
  AuditRule.enabled rule_forbid_empty = true
  /\ not_activated None rule_forbid_empty = false
  /\ wrong_receipt_type receipt_unlabelled rule_forbid_empty = false
  /\ AuditRule.type rule_forbid_empty = RuleType.FORBIDDEN_CATEGORY
  /\ Js.includes
       (Js.toLowerCase hostUTC (ReceiptData.category receipt_unlabelled))
       (Js.toLowerCase hostUTC
          (String_ hostUTC (AuditRule.value rule_forbid_empty))) = true
  /\ AuditResult.triggeredRules
       (evaluateRules hostUTC receipt_unlabelled [rule_forbid_empty] None)
     = [].
Proof. repeat split. Qed.

(** C8: [evaluateRules] gives a result on every input, and a rule whose
    kind is none of the four the [switch] handles, or a [REQUIRED_FIELD]
    rule whose token is not ['Merchant'], is inert: it does not fire, the
    result is the one of the catalog without it, and in a catalog with
    distinct ids its id is not reported. *)
Theorem unhandled_rule_is_inert
        (host : Js.Host) (data : ReceiptData.t)
        (before after : list AuditRule.t) (r : AuditRule.t)
        (activeRuleIds : option (list string))
        (Hr : unhandled r = true) :
  let rules := (before ++ r :: after)%list in
  (exists res, evaluateRules host data rules activeRuleIds = res)
  /\ fires host data activeRuleIds r = false
  /\ evaluateRules host data rules activeRuleIds
     = evaluateRules host data (before ++ after)%list activeRuleIds
  /\ (NoDup (map AuditRule.id rules) ->
      ~ In (AuditRule.id r)
           (AuditResult.triggeredRules
              (evaluateRules host data rules activeRuleIds))).
Proof.
  intros rules.
  assert (Hf : fires host data activeRuleIds r = false).
  { unfold fires; rewrite (violation_unhandled host data r Hr).
    apply andb_false_r. }
  split; [eexists; reflexivity|]; split; [exact Hf|]; split.
  - unfold rules; rewrite !evaluateRules_eta; simpl.
    rewrite !filter_app; simpl; now rewrite Hf.
  - intros Hnd Hin.
    apply (triggered_iff_fires host data activeRuleIds rules r Hnd) in Hin.
    + congruence.
    + unfold rules; apply in_or_app; right; now left.
Qed.

Lemma unhandled_rule_is_inert_witness :
  unhandled rule_odd = true
  /\ unhandled rule_date_field = true
  /\ evaluateRules hostUTC receipt_anonymous
                   [rule_merchant; rule_odd; rule_date_field; rule_max] None
     = evaluateRules hostUTC receipt_anonymous
                     [rule_merchant; rule_date_field; rule_max] None
  /\ evaluateRules hostUTC receipt_anonymous
                   [rule_merchant; rule_date_field; rule_max] None
     = evaluateRules hostUTC receipt_anonymous [rule_merchant; rule_max] None
  /\ AuditResult.triggeredRules
       (evaluateRules hostUTC receipt_anonymous
                      [rule_merchant; rule_odd; rule_date_field; rule_max] None)
     = ["r4"].
Proof.
  split; [reflexivity|]; split; [reflexivity|]; split; [|split].
  - exact (proj1 (proj2 (proj2
      (unhandled_rule_is_inert hostUTC receipt_anonymous [rule_merchant]
         [rule_date_field; rule_max] rule_odd None eq_refl)))).
  - exact (proj1 (proj2 (proj2
      (unhandled_rule_is_inert hostUTC receipt_anonymous [rule_merchant]
         [rule_max] rule_date_field None eq_refl)))).
  - reflexivity.
Defined.

(** ** Migration of the request types *)

Lemma legacy_match_iff (rt : RequestType.t) (r : AuditRule.t) :
  legacy_match rt r = true <-> legacy_linked rt r.
Proof.
  unfold legacy_match, legacy_linked, spec_linked, tag_absent, tag_empty,
    Js.truthy_opt, Js.truthy.
  destruct (AuditRule.linkedRequestType r) as [tag|]; simpl.
  - destruct (String.eqb_spec tag ""); simpl.
    + split; [intros _; right; congruence | reflexivity].
    + rewrite orb_true_iff, !String.eqb_eq; split.
      * intros [->| ->]; auto.
      * intros [[H|[H|H]]|H]; try congruence; injection H; auto.
  - split; [intros _; now do 2 left | reflexivity].
Qed.

(** Where no rule carries an empty tag the two linkage rules agree. *)
Lemma legacy_linked_spec (rt : RequestType.t) (r : AuditRule.t) :
  ~ tag_empty r -> (legacy_linked rt r <-> spec_linked rt r).
Proof. unfold legacy_linked; tauto. Qed.

Lemma relink_links (rules : list AuditRule.t) (rt : RequestType.t) :
  exists ids,
    RequestType.linkedRuleIds (relink rules rt) = Some ids
    /\ (forall i, In i ids <->
          exists r, In r rules /\ AuditRule.id r = i /\ legacy_linked rt r)
    /\ Subseq ids (map AuditRule.id rules).
Proof.
  exists (map AuditRule.id (filter (legacy_match rt) rules)).
  split; [reflexivity|]; split; [|apply Subseq_map_filter].
  intros i; rewrite in_map_iff; split.
  - intros [r [E H]]; apply filter_In in H; destruct H as [H M].
    exists r; repeat split; auto; now apply legacy_match_iff.
  - intros [r [H [E L]]]; exists r; split; [assumption|].
    apply filter_In; split; [assumption | now apply legacy_match_iff].
Qed.

Lemma relink_links_spec (rules : list AuditRule.t) (rt : RequestType.t) :
  (forall r, In r rules -> ~ tag_empty r) ->
  exists ids,
    RequestType.linkedRuleIds (relink rules rt) = Some ids
    /\ (forall i, In i ids <->
          exists r, In r rules /\ AuditRule.id r = i /\ spec_linked rt r).
Proof.
  intros Hne; destruct (relink_links rules rt) as [ids [E [H _]]].
  exists ids; split; [exact E|]; intros i; rewrite H; split.
  - intros [r [Hr [Ei L]]]; exists r; repeat split; auto.
    now apply legacy_linked_spec; auto.
  - intros [r [Hr [Ei L]]]; exists r; repeat split; auto.
    now left.
Qed.

(** C9, as the code has it: the migration maps every request type to
    itself with a list of linked rule ids: same ids and names in the same
    order, so no request type is dropped or added; each list holds exactly
    the ids of the rules whose legacy tag is absent, is the empty string,
    is "ALL", or is the id of that request type, in catalog order; no
    request type is left without a list.  Where no rule of the catalog has
    the empty string as tag, the lists hold exactly the ids of the rules
    whose tag is absent, is "ALL", or is the id of the request type.  The
    table of rules is not written.  The step of [db.init] installs this
    mapping when its guard holds and otherwise leaves both tables as they
    are. *)
Theorem migration_links_by_legacy_tag (db : Tables) :
  let rules := rules_table db in
  let before := request_types_table db in
  let after := migrateLinkage before rules in
  map RequestType.id after = map RequestType.id before
  /\ map RequestType.name after = map RequestType.name before
  /\ Forall2
       (fun rt rt' =>
          exists ids,
            RequestType.linkedRuleIds rt' = Some ids
            /\ (forall i, In i ids <->
                  exists r, In r rules /\ AuditRule.id r = i
                            /\ legacy_linked rt r)
            /\ Subseq ids (map AuditRule.id rules))
       before after
  /\ ((forall r, In r rules -> ~ tag_empty r) ->
      Forall2
        (fun rt rt' =>
           exists ids,
             RequestType.linkedRuleIds rt' = Some ids
             /\ (forall i, In i ids <->
                   exists r, In r rules /\ AuditRule.id r = i
                             /\ spec_linked rt r))
        before after)
  /\ Forall (fun rt' => RequestType.linkedRuleIds rt' <> None) after
  /\ rules_table (migrate_request_types db) = rules
  /\ (needs_migration before = true ->
      request_types_table (migrate_request_types db) = after)
  /\ (needs_migration before = false -> migrate_request_types db = db).
Proof.
  intros rules before after; unfold after, migrateLinkage.
  split; [|split; [|split; [|split; [|split; [|split; [|split]]]]]].
  - rewrite map_map; now apply map_ext.
  - rewrite map_map; now apply map_ext.
  - induction before as [|rt l IH]; simpl; constructor; auto.
    apply relink_links.
  - intros Hne; induction before as [|rt l IH]; simpl; constructor; auto.
    now apply relink_links_spec.
  - apply Forall_forall; intros rt' H; apply in_map_iff in H.
    destruct H as [rt [<- _]]; discriminate.
  - unfold migrate_request_types; fold before.
    now destruct (needs_migration before).
  - intros G; unfold migrate_request_types; fold before; now rewrite G.
  - intros G; unfold migrate_request_types; fold before; now rewrite G.
Qed.

(** The migration on tables stored before the links existed. *)
Example migration_of_legacy_tables :
  needs_migration (request_types_table legacy_tables) = true
  /\ map (fun rt => (RequestType.name rt, RequestType.linkedRuleIds rt))
         (request_types_table (migrate_request_types legacy_tables))
     = [("Travel", Some ["a"; "b"; "c"; "e"]);
        ("Meals", Some ["a"; "b"; "d"; "e"]);
        ("Other", Some ["a"; "b"; "e"])].
Proof. split; reflexivity. Qed.

(** C9 as it is worded fails on a rule whose legacy tag is the empty
    string: in the stored tables of the example the rule "e" has a tag, the
    empty string, which is neither "ALL" nor the id of a request type, and
    no other rule has the id "e"; the migration runs and links "e" to
    every request type. *)
Lemma migration_links_empty_tag_counterexample :
  needs_migration (request_types_table legacy_tables) = true
  /\ In (legacy_rule "e" (Some "")) (rules_table legacy_tables)
  /\ AuditRule.linkedRequestType (legacy_rule "e" (Some "")) = Some ""
  /\ (forall r, In r (rules_table legacy_tables) -> AuditRule.id r = "e" ->
        forall rt, In rt (request_types_table legacy_tables) ->
                   ~ spec_linked rt r)
  /\ map (fun rt => (RequestType.id rt, RequestType.linkedRuleIds rt))
         (request_types_table (migrate_request_types legacy_tables))
     = [("rt_travel", Some ["a"; "b"; "c"; "e"]);
        ("rt_meals", Some ["a"; "b"; "d"; "e"]);
        ("rt_other", Some ["a"; "b"; "e"])].
Proof.
  split; [reflexivity|]; split; [simpl; tauto|]; split; [reflexivity|].
  split; [|reflexivity].
  intros r Hr Hid rt Hrt [A|[A|A]]; simpl in Hr, Hrt;
    destruct Hr as [<-|[<-|[<-|[<-|[<-|[]]]]]]; try discriminate Hid;
    try discriminate A.
  destruct Hrt as [<-|[<-|[<-|[]]]]; discriminate A.
Qed.

(** ** Deleting a rule *)

Lemma Subseq_filter {A : Type} (p : A -> bool) (l : list A) :
  Subseq (filter p l) l.
Proof.
  induction l as [|a l IH]; simpl; [auto with subseq|].
  destruct (p a); auto with subseq.
Qed.

Lemma prune_absent (id : string) (l : list string) :
  ~ In id (filter (fun rid => negb (rid =? id)%string) l).
Proof.
  intros H; apply filter_In in H; destruct H as [_ H].
  now rewrite String.eqb_refl in H.
Qed.

Lemma prune_count (id j : string) (l : list string) :
  j <> id ->
  count_occ string_dec (filter (fun rid => negb (rid =? id)%string) l) j
  = count_occ string_dec l j.
Proof.
  intros N; induction l as [|a l IH]; simpl; [reflexivity|].
  destruct (String.eqb_spec a id) as [->|Ha]; simpl.
  - destruct (string_dec id j); [congruence | exact IH].
  - destruct (string_dec a j); now rewrite IH.
Qed.

Lemma prune_id (id : string) (l : list string) :
  ~ In id l -> filter (fun rid => negb (rid =? id)%string) l = l.
Proof.
  induction l as [|a l IH]; simpl; intros H; [reflexivity|].
  destruct (String.eqb_spec a id) as [->|Ha]; simpl.
  - exfalso; apply H; now left.
  - rewrite IH; [reflexivity | intros Hin; apply H; now right].
Qed.

(** C10, as the code has it: a confirmed deletion on a writable page
    removes from the catalog the rules with the deleted id and maps every
    request type to one with the same id and name whose list no longer
    holds the deleted id and keeps every other id, as many times and in the
    same order as before; a request type whose list did not hold the id is
    unchanged, and a request type that had no list gets the empty list.  A
    read-only page or a refused confirmation changes nothing. *)
Theorem delete_rule_prunes_links (id : string) (st : Settings) :
  let st' := handleDeleteRule false true id st in
  (forall r, In r (rules st') <->
             In r (rules st) /\ AuditRule.id r <> id)
  /\ Subseq (rules st') (rules st)
  /\ Forall2
       (fun rt rt' =>
          RequestType.id rt' = RequestType.id rt
          /\ RequestType.name rt' = RequestType.name rt
          /\ (exists ids',
                RequestType.linkedRuleIds rt' = Some ids'
                /\ ~ In id ids'
                /\ forall ids, RequestType.linkedRuleIds rt = Some ids ->
                     Subseq ids' ids
                     /\ forall j, j <> id ->
                          count_occ string_dec ids' j
                          = count_occ string_dec ids j)
          /\ (forall ids, RequestType.linkedRuleIds rt = Some ids ->
                ~ In id ids -> rt' = rt)
          /\ (RequestType.linkedRuleIds rt = None ->
              RequestType.linkedRuleIds rt' = Some []))
       (requestTypes st) (requestTypes st')
  /\ handleDeleteRule true true id st = st
  /\ handleDeleteRule true false id st = st
  /\ handleDeleteRule false false id st = st.
Proof.
  intros st'; unfold st', handleDeleteRule; simpl.
  split; [|split; [|split; [|repeat split]]].
  - intros r; rewrite filter_In, negb_true_iff.
    destruct (String.eqb_spec (AuditRule.id r) id); split;
      intros [H1 H2]; split; congruence.
  - apply Subseq_filter.
  - induction (requestTypes st) as [|rt l IH]; simpl; constructor; auto.
    unfold unlink; simpl.
    destruct rt as [i n [ids|]]; simpl; repeat split.
    + eexists; split; [reflexivity|]; split; [apply prune_absent|].
      intros ids0 E; injection E as <-; split.
      * apply Subseq_filter.
      * intros j; apply prune_count.
    + intros ids0 E N; injection E as <-; now rewrite prune_id.
    + discriminate.
    + exists []; split; [reflexivity|]; split; [intros []|discriminate].
    + discriminate.
Qed.

(** C10 as it is worded fails on a request type that has no list of
    links: deleting rule "r2" turns the absent list of "Other" into an
    empty one, and a receipt filed under "Other", which the remaining rules
    flagged before, passes afterwards. *)
Lemma delete_rule_unlisted_type_counterexample :
  let st' := handleDeleteRule false true "r2" settings_sample in
  map RequestType.linkedRuleIds (requestTypes settings_sample)
  = [Some ["r2"; "r1"; "r3"; "r2"; "r4"]; Some ["r1"]; None]
  /\ map RequestType.linkedRuleIds (requestTypes st')
     = [Some ["r1"; "r3"; "r4"]; Some ["r1"]; Some []]
  /\ AuditResult.triggeredRules
       (evaluateRules hostUTC receipt_sat (rules st')
          (getActiveRulesForType (requestTypes settings_sample) "Other"))
     = ["r1"; "r3"]
  /\ AuditResult.triggeredRules
       (evaluateRules hostUTC receipt_sat (rules st')
          (getActiveRulesForType (requestTypes st') "Other"))
     = [].
Proof. repeat split. Qed.

(** * Further properties of the rule engine *)

Lemma fires_active_ext host data a1 a2 r :
  not_activated a1 r = not_activated a2 r ->
  fires host data a1 r = fires host data a2 r.
Proof. intros E; unfold fires; now rewrite E. Qed.

Lemma array_includes_ext (l1 l2 : list string) :
  (forall i, In i l1 <-> In i l2) ->
  forall x, Js.array_includes l1 x = Js.array_includes l2 x.
Proof.
  intros H x.
  pose proof (array_includes_In l1 x) as H1.
  pose proof (array_includes_In l2 x) as H2.
  specialize (H x).
  destruct (Js.array_includes l1 x), (Js.array_includes l2 x); intuition.
Qed.

(** X1: the list of active ids only counts as a set: two lists with the
    same members, in any order and with any repetitions, give the same
    result. *)
Theorem active_ids_count_as_a_set
        (host : Js.Host) (data : ReceiptData.t) (rules : list AuditRule.t)
        (ids1 ids2 : list string)
        (Hsame : forall i, In i ids1 <-> In i ids2) :
  evaluateRules host data rules (Some ids1)
  = evaluateRules host data rules (Some ids2).
Proof.
  rewrite !evaluateRules_eta.
  assert (E : filter (fires host data (Some ids1)) rules
              = filter (fires host data (Some ids2)) rules).
  { apply filter_ext; intros r; apply fires_active_ext; simpl.
    now rewrite (array_includes_ext ids1 ids2 Hsame). }
  now rewrite E.
Qed.

Lemma active_ids_count_as_a_set_witness :
  (forall i, In i ["r1"; "r3"; "r1"] <-> In i ["r3"; "r1"])
  /\ evaluateRules hostUTC receipt_sat catalog (Some ["r1"; "r3"; "r1"])
     = evaluateRules hostUTC receipt_sat catalog (Some ["r3"; "r1"]).
Proof.
  assert (H : forall i, In i ["r1"; "r3"; "r1"] <-> In i ["r3"; "r1"])
    by (intros i; simpl; tauto).
  split; [exact H|].
  exact (active_ids_count_as_a_set hostUTC receipt_sat catalog _ _ H).
Defined.

Lemma covering_ids_same_result host data rules ids :
  (forall r, In r rules -> AuditRule.enabled r = true ->
             In (AuditRule.id r) ids) ->
  evaluateRules host data rules (Some ids)
  = evaluateRules host data rules None.
Proof.
  intros Hcover; rewrite !evaluateRules_eta.
  assert (E : filter (fires host data (Some ids)) rules
              = filter (fires host data None) rules).
  { apply filter_ext_in; intros r Hr; unfold fires.
    destruct (AuditRule.enabled r) eqn:En; [|reflexivity]; simpl.
    pose proof (Hcover r Hr En) as Hin.
    apply array_includes_In in Hin; now rewrite Hin. }
  now rewrite E.
Qed.

(** X2: a list of active ids that holds the id of every enabled rule of
    the catalog restricts nothing: the result is the one obtained without
    a list, whatever else the list holds. *)
Theorem active_ids_covering_enabled_rules
        (host : Js.Host) (data : ReceiptData.t) (rules : list AuditRule.t)
        (ids : list string)
        (Hcover : forall r, In r rules -> AuditRule.enabled r = true ->
                            In (AuditRule.id r) ids) :
  evaluateRules host data rules (Some ids)
  = evaluateRules host data rules None.
Proof. now apply covering_ids_same_result. Qed.

Lemma active_ids_covering_enabled_rules_witness :
  (forall r, In r catalog -> AuditRule.enabled r = true ->
             In (AuditRule.id r) ["zz"; "r6"; "r4"; "r3"; "r2"; "r1"])
  /\ evaluateRules hostUTC receipt_sat catalog
                   (Some ["zz"; "r6"; "r4"; "r3"; "r2"; "r1"])
     = evaluateRules hostUTC receipt_sat catalog None.
Proof.
  assert (H : forall r, In r catalog -> AuditRule.enabled r = true ->
                        In (AuditRule.id r)
                           ["zz"; "r6"; "r4"; "r3"; "r2"; "r1"]).
  { intros r Hr En; simpl in Hr.
    destruct Hr as [<-|[<-|[<-|[<-|[<-|[<-|[]]]]]]]; simpl; auto 10.
    discriminate. }
  split; [exact H|].
  exact (active_ids_covering_enabled_rules hostUTC receipt_sat catalog _ H).
Defined.

Lemma Subseq_filter_imp {A : Type} (p q : A -> bool) (l : list A) :
  (forall x, In x l -> p x = true -> q x = true) ->
  Subseq (filter p l) (filter q l).
Proof.
  induction l as [|a l IH]; simpl; intros H; [auto with subseq|].
  assert (IH' : Subseq (filter p l) (filter q l)) by (apply IH; auto).
  destruct (p a) eqn:P.
  - rewrite (H a (or_introl eq_refl) P); auto with subseq.
  - destruct (q a); auto with subseq.
Qed.

Lemma Subseq_nil_r {A : Type} (l : list A) : Subseq l [] -> l = [].
Proof. now inversion 1. Qed.

Lemma Subseq_map {A B : Type} (f : A -> B) (l1 l2 : list A) :
  Subseq l1 l2 -> Subseq (map f l1) (map f l2).
Proof. induction 1; simpl; auto with subseq. Qed.

Lemma Subseq_weight_sum (l1 l2 : list AuditRule.t) :
  Subseq l1 l2 ->
  sumZ (map (fun r => kind_weight (AuditRule.type r)) l1)
  <= sumZ (map (fun r => kind_weight (AuditRule.type r)) l2).
Proof.
  induction 1 as [|x l1 l2 H IH|x l1 l2 H IH]; simpl; try lia.
  pose proof (kind_weight_pos (AuditRule.type x)); lia.
Qed.

Lemma clamp100_mono (x y : Z) : x <= y -> clamp100 x <= clamp100 y.
Proof.
  unfold clamp100; intros H.
  destruct (Z.ltb_spec x 0), (Z.ltb_spec 100 x),
           (Z.ltb_spec y 0), (Z.ltb_spec 100 y); lia.
Qed.

Lemma fires_narrower host data ids a r :
  (forall ids2, a = Some ids2 -> forall i, In i ids -> In i ids2) ->
  fires host data (Some ids) r = true -> fires host data a r = true.
Proof.
  intros Hsub; unfold fires; destruct a as [ids2|]; simpl.
  - destruct (Js.array_includes ids (AuditRule.id r)) eqn:I1.
    + apply array_includes_In in I1.
      apply (Hsub ids2 eq_refl), array_includes_In in I1; now rewrite I1.
    + now rewrite andb_false_r.
  - destruct (Js.array_includes ids (AuditRule.id r)); [auto|].
    now rewrite andb_false_r.
Qed.

(** X3: narrowing the list of active ids can only remove reported rules.
    If every id of [ids] is also in the other list, or the other call has
    no list, then the ids reported with [ids] are a subsequence of the ids
    reported by the other call, the score is not higher, and the receipt
    passes whenever it passes in the other call. *)
Theorem narrower_active_ids_report_less
        (host : Js.Host) (data : ReceiptData.t) (rules : list AuditRule.t)
        (ids : list string) (wider : option (list string))
        (Hsub : forall ids2, wider = Some ids2 ->
                forall i, In i ids -> In i ids2) :
  let res1 := evaluateRules host data rules (Some ids) in
  let res2 := evaluateRules host data rules wider in
  Subseq (AuditResult.triggeredRules res1) (AuditResult.triggeredRules res2)
  /\ AuditResult.score res1 <= AuditResult.score res2
  /\ (AuditResult.passed res2 = true -> AuditResult.passed res1 = true).
Proof.
  intros res1 res2.
  assert (S : Subseq (filter (fires host data (Some ids)) rules)
                     (filter (fires host data wider) rules)).
  { apply Subseq_filter_imp; intros r _; now apply fires_narrower. }
  assert (T : Subseq (AuditResult.triggeredRules res1)
                     (AuditResult.triggeredRules res2)).
  { unfold res1, res2; rewrite !evaluateRules_triggered.
    now apply Subseq_map. }
  split; [exact T|]; split.
  - unfold res1, res2; rewrite !evaluateRules_score.
    now apply clamp100_mono, Subseq_weight_sum.
  - unfold res1, res2 in *; rewrite !evaluateRules_passed.
    destruct (AuditResult.triggeredRules
                (evaluateRules host data rules wider)); [|discriminate].
    now rewrite (Subseq_nil_r _ T).
Qed.

Lemma narrower_active_ids_report_less_witness :
  (forall ids2, Some ["r1"; "r2"; "r3"] = Some ids2 ->
                forall i, In i ["r3"; "r1"] -> In i ids2)
  /\ AuditResult.triggeredRules
       (evaluateRules hostUTC receipt_sat catalog (Some ["r3"; "r1"]))
     = ["r1"; "r3"]
  /\ AuditResult.triggeredRules
       (evaluateRules hostUTC receipt_sat catalog (Some ["r1"; "r2"; "r3"]))
     = ["r1"; "r2"; "r3"]
  /\ AuditResult.score
       (evaluateRules hostUTC receipt_sat catalog (Some ["r3"; "r1"]))
     <= AuditResult.score
          (evaluateRules hostUTC receipt_sat catalog (Some ["r1"; "r2"; "r3"])).
Proof.
  assert (H : forall ids2, Some ["r1"; "r2"; "r3"] = Some ids2 ->
                forall i, In i ["r3"; "r1"] -> In i ids2).
  { intros ids2 E i Hi; injection E as <-; simpl in *; tauto. }
  split; [exact H|]; split; [reflexivity|]; split; [reflexivity|].
  exact (proj1 (proj2 (narrower_active_ids_report_less hostUTC receipt_sat
                         catalog ["r3"; "r1"] (Some ["r1"; "r2"; "r3"]) H))).
Defined.

Lemma weight_sum_nonneg (l : list AuditRule.t) :
  0 <= sumZ (map (fun r => kind_weight (AuditRule.type r)) l).
Proof.
  induction l as [|r l IH]; simpl; [lia|].
  pose proof (kind_weight_pos (AuditRule.type r)); lia.
Qed.

Lemma sumZ_app (l1 l2 : list Z) : sumZ (l1 ++ l2) = sumZ l1 + sumZ l2.
Proof. induction l1 as [|x l1 IH]; simpl; lia. Qed.

(** X4: the loop never stops early and carries nothing from one rule to
    the next but the two accumulators, so a catalog made of two parts is
    evaluated part by part: the reported ids are those of the first part
    followed by those of the second, the scores add up and saturate at
    100, and the receipt passes when it passes both parts. *)
Theorem catalog_is_evaluated_part_by_part
        (host : Js.Host) (data : ReceiptData.t)
        (rules1 rules2 : list AuditRule.t)
        (activeRuleIds : option (list string)) :
  let res := evaluateRules host data (rules1 ++ rules2)%list activeRuleIds in
  let res1 := evaluateRules host data rules1 activeRuleIds in
  let res2 := evaluateRules host data rules2 activeRuleIds in
  AuditResult.triggeredRules res
  = (AuditResult.triggeredRules res1 ++ AuditResult.triggeredRules res2)%list
  /\ AuditResult.score res
     = Z.min 100 (AuditResult.score res1 + AuditResult.score res2)
  /\ AuditResult.passed res
     = AuditResult.passed res1 && AuditResult.passed res2.
Proof.
  intros res res1 res2.
  assert (T : AuditResult.triggeredRules res
              = (AuditResult.triggeredRules res1
                 ++ AuditResult.triggeredRules res2)%list).
  { unfold res, res1, res2; rewrite !evaluateRules_triggered.
    now rewrite filter_app, map_app. }
  split; [exact T|]; split.
  - unfold res, res1, res2; rewrite !evaluateRules_score.
    rewrite filter_app, map_app, sumZ_app.
    pose proof (weight_sum_nonneg (filter (fires host data activeRuleIds) rules1)).
    pose proof (weight_sum_nonneg (filter (fires host data activeRuleIds) rules2)).
    unfold clamp100.
    repeat match goal with |- context [?a <? ?b] =>
      destruct (Z.ltb_spec a b) end; lia.
  - unfold res, res1, res2 in *; rewrite !evaluateRules_passed, T.
    destruct (AuditResult.triggeredRules
                (evaluateRules host data rules1 activeRuleIds)); simpl;
      reflexivity.
Qed.

Lemma kind_weight_known (k : string) :
  known_kind k = true -> 20 <= kind_weight k.
Proof.
  unfold known_kind, kind_weight, RuleType.MAX_AMOUNT,
    RuleType.FORBIDDEN_CATEGORY, RuleType.WEEKEND_BAN, RuleType.REQUIRED_FIELD.
  repeat match goal with |- context [(?a =? ?b)%string] =>
    destruct (a =? b)%string end; simpl; intros; try lia; discriminate.
Qed.

(** X5: the score is zero exactly when the receipt passes, and a receipt
    that does not pass scores at least 20, the smallest weight a rule that
    fires can carry. *)
Theorem zero_score_iff_passed
        (host : Js.Host) (data : ReceiptData.t) (rules : list AuditRule.t)
        (activeRuleIds : option (list string)) :
  let res := evaluateRules host data rules activeRuleIds in
  (AuditResult.score res = 0 <-> AuditResult.passed res = true)
  /\ (AuditResult.passed res = false -> 20 <= AuditResult.score res <= 100).
Proof.
  intros res; unfold res.
  rewrite evaluateRules_passed, evaluateRules_score, evaluateRules_triggered.
  assert (K : Forall (fun r => known_kind (AuditRule.type r) = true)
                     (filter (fires host data activeRuleIds) rules)).
  { apply Forall_forall; intros r Hr; apply filter_In in Hr.
    destruct Hr as [_ F]; eapply fires_known_kind; eauto. }
  destruct (filter (fires host data activeRuleIds) rules) as [|r l]; simpl.
  - split; [split; reflexivity | discriminate].
  - inversion K as [|? ? Kr Kl]; subst.
    pose proof (kind_weight_known _ Kr).
    pose proof (weight_sum_nonneg l).
    pose proof (clamp100_range
                  (kind_weight (AuditRule.type r)
                   + sumZ (map (fun r0 => kind_weight (AuditRule.type r0)) l))).
    assert (20 <= clamp100
                    (kind_weight (AuditRule.type r)
                     + sumZ (map (fun r0 => kind_weight (AuditRule.type r0)) l))).
    { unfold clamp100.
      repeat match goal with |- context [?a <? ?b] =>
        destruct (Z.ltb_spec a b) end; lia. }
    split; [split; [lia | discriminate] | intros _; lia].
Qed.

Lemma violation_required_field host data r :
  AuditRule.type r = RuleType.REQUIRED_FIELD ->
  violation host data r
  = value_is (AuditRule.value r) "Merchant"
    && (negb (Js.truthy (ReceiptData.merchantName data))
        || (ReceiptData.merchantName data =? MERCHANT_UNKNOWN)%string
        || (ReceiptData.merchantName data =? MERCHANT_UNKNOWN_ZH)%string).
Proof. intros E; unfold violation; now rewrite E. Qed.

(** X6: in a catalog with distinct ids, an enabled, activated
    [REQUIRED_FIELD] rule of an applicable receipt type whose value is
    ['Merchant'] is reported exactly when the merchant name is empty or is
    one of the two placeholders "Unknown" and "未知". *)
Theorem required_merchant_triggered_iff
        (host : Js.Host) (data : ReceiptData.t) (rules : list AuditRule.t)
        (activeRuleIds : option (list string)) (r : AuditRule.t)
        (Hids : NoDup (map AuditRule.id rules))
        (Hr : In r rules)
        (Henabled : AuditRule.enabled r = true)
        (Hactive : not_activated activeRuleIds r = false)
        (Happlies : wrong_receipt_type data r = false)
        (Hkind : AuditRule.type r = RuleType.REQUIRED_FIELD)
        (Hvalue : AuditRule.value r = VStr "Merchant") :
  In (AuditRule.id r)
     (AuditResult.triggeredRules
        (evaluateRules host data rules activeRuleIds))
  <-> ReceiptData.merchantName data = ""
      \/ ReceiptData.merchantName data = "Unknown"
      \/ ReceiptData.merchantName data = MERCHANT_UNKNOWN_ZH.
Proof.
  reported_to_violation Hids Hr Henabled Hactive Happlies.
  rewrite (violation_required_field host data r Hkind), Hvalue; simpl.
  unfold Js.truthy, MERCHANT_UNKNOWN; rewrite negb_involutive.
  rewrite !orb_true_iff, !String.eqb_eq; tauto.
Qed.

Lemma required_merchant_triggered_iff_witness :
  NoDup (map AuditRule.id catalog)
  /\ In rule_merchant catalog
  /\ AuditRule.enabled rule_merchant = true
  /\ not_activated (Some ["r4"]) rule_merchant = false
  /\ wrong_receipt_type receipt_anonymous rule_merchant = false
  /\ AuditRule.type rule_merchant = RuleType.REQUIRED_FIELD
  /\ AuditRule.value rule_merchant = VStr "Merchant"
  /\ (In "r4" (AuditResult.triggeredRules
                 (evaluateRules hostUTC receipt_anonymous catalog
                                (Some ["r4"])))
      <-> ReceiptData.merchantName receipt_anonymous = ""
          \/ ReceiptData.merchantName receipt_anonymous = "Unknown"
          \/ ReceiptData.merchantName receipt_anonymous = MERCHANT_UNKNOWN_ZH).
Proof.
  pose proof catalog_ids_distinct as H.
  assert (Hin : In rule_merchant catalog) by (simpl; tauto).
  do 7 (split; [first [exact H | exact Hin | reflexivity]|]).
  exact (required_merchant_triggered_iff hostUTC receipt_anonymous catalog
           (Some ["r4"]) rule_merchant H Hin eq_refl eq_refl eq_refl eq_refl
           eq_refl).
Defined.

Lemma wrong_receipt_type_iff data r :
  wrong_receipt_type data r = true <->
  exists tok, AuditRule.receiptType r = Some tok
              /\ tok <> "" /\ tok <> "ALL"
              /\ Js.includes (Js.or_empty (ReceiptData.type data)) tok = false.
Proof.
  unfold wrong_receipt_type.
  destruct (AuditRule.receiptType r) as [tok|].
  - unfold Js.truthy.
    destruct (String.eqb_spec tok ""), (String.eqb_spec tok "ALL"); simpl.
    + split; [discriminate|]; intros [t [E [N _]]]; congruence.
    + split; [discriminate|]; intros [t [E [N _]]]; congruence.
    + split; [discriminate|]; intros [t [E [_ [N _]]]]; congruence.
    + rewrite negb_true_iff; split.
      * intros H; exists tok; auto.
      * intros [t [E [_ [_ H]]]]; now injection E as ->.
  - split; [discriminate|]; intros [t [E _]]; discriminate.
Qed.

(** X7: a rule that names a receipt type other than ['ALL'] is never
    reported for a receipt whose type does not contain that name, letter
    case included; in particular it is never reported for a receipt
    without a type.  A rule without a receipt type, or with the empty
    string or ['ALL'], applies to every receipt. *)
Theorem typed_rule_needs_matching_receipt
        (host : Js.Host) (data : ReceiptData.t) (rules : list AuditRule.t)
        (activeRuleIds : option (list string)) (r : AuditRule.t) (tok : string)
        (Hids : NoDup (map AuditRule.id rules))
        (Hr : In r rules)
        (Htok : AuditRule.receiptType r = Some tok)
        (Hne : tok <> "") (Hall : tok <> "ALL") :
  let triggered :=
    AuditResult.triggeredRules
      (evaluateRules host data rules activeRuleIds) in
  (In (AuditRule.id r) triggered ->
   exists pre post,
     Js.or_empty (ReceiptData.type data) = (pre ++ tok ++ post)%string)
  /\ (ReceiptData.type data = None -> ~ In (AuditRule.id r) triggered)
  /\ (forall r', AuditRule.receiptType r' = None
                 \/ AuditRule.receiptType r' = Some ""
                 \/ AuditRule.receiptType r' = Some "ALL" ->
        wrong_receipt_type data r' = false).
Proof.
  intros triggered.
  assert (A : In (AuditRule.id r) triggered ->
              Js.includes (Js.or_empty (ReceiptData.type data)) tok = true).
  { intros Hin; unfold triggered in Hin.
    apply (triggered_iff_fires host data activeRuleIds rules r Hids Hr) in Hin.
    unfold fires in Hin.
    destruct (wrong_receipt_type data r) eqn:W.
    - now rewrite andb_false_r in Hin.
    - destruct (Js.includes (Js.or_empty (ReceiptData.type data)) tok) eqn:I;
        [reflexivity|].
      assert (W' : wrong_receipt_type data r = true)
        by (apply wrong_receipt_type_iff; exists tok; auto).
      congruence. }
  split; [|split].
  - intros Hin; now apply includes_occurs, A.
  - intros Hnone Hin; apply A, includes_occurs in Hin.
    destruct Hin as [pre [post E]]; rewrite Hnone in E; simpl in E.
    destruct pre; [|discriminate].
    destruct tok; [congruence | discriminate].
  - intros r' H; unfold wrong_receipt_type.
    destruct H as [-> | [-> | ->]]; reflexivity.
Qed.

Lemma typed_rule_needs_matching_receipt_witness :
  NoDup (map AuditRule.id [rule_taxi; rule_max])
  /\ AuditRule.receiptType rule_taxi = Some "Taxi"
  /\ (ReceiptData.type receipt_sat = Some "Invoice"
      /\ ~ In "r10" (AuditResult.triggeredRules
                       (evaluateRules hostUTC receipt_sat
                                      [rule_taxi; rule_max] None)))
  /\ AuditResult.triggeredRules
       (evaluateRules hostUTC receipt_taxi [rule_taxi; rule_max] None)
     = ["r10"].
Proof.
  assert (H : NoDup (map AuditRule.id [rule_taxi; rule_max])).
  { simpl; repeat constructor; simpl; intuition discriminate. }
  split; [exact H|]; split; [reflexivity|]; split; [|reflexivity].
  split; [reflexivity|].
  intros Hin.
  destruct (proj1 (typed_rule_needs_matching_receipt hostUTC receipt_sat
                     [rule_taxi; rule_max] None rule_taxi "Taxi" H
                     (or_introl eq_refl) eq_refl
                     ltac:(discriminate) ltac:(discriminate)) Hin)
    as [pre [post E]].
  assert (I : Js.includes "Invoice" "Taxi" = true)
    by (apply includes_occurs; now exists pre, post).
  discriminate I.
Defined.

(** X8: on a host whose local time is at or ahead of UTC by less than a
    day at midnight UTC of the receipt's date, an enabled, activated
    [WEEKEND_BAN] rule of an applicable receipt type in a catalog with
    distinct ids is reported, for a date written [YYYY-MM-DD], exactly
    when that calendar date is a Saturday or a Sunday. *)
Theorem weekend_ban_east_of_utc
        (host : Js.Host) (data : ReceiptData.t) (rules : list AuditRule.t)
        (activeRuleIds : option (list string)) (r : AuditRule.t)
        (y m d : Z)
        (Hids : NoDup (map AuditRule.id rules))
        (Hr : In r rules)
        (Henabled : AuditRule.enabled r = true)
        (Hactive : not_activated activeRuleIds r = false)
        (Happlies : wrong_receipt_type data r = false)
        (Hkind : AuditRule.type r = RuleType.WEEKEND_BAN)
        (Hdate : Js.parseCalendarDate (ReceiptData.date data) = Some (y, m, d))
        (Hzone : 0 <= Js.LocalTZA host (Js.MakeDay y m d * Js.msPerDay)
                 < Js.msPerDay) :
  In (AuditRule.id r)
     (AuditResult.triggeredRules
        (evaluateRules host data rules activeRuleIds))
  <-> (Js.MakeDay y m d + 4) mod 7 = 6 \/ (Js.MakeDay y m d + 4) mod 7 = 0.
Proof.
  reported_to_violation Hids Hr Henabled Hactive Happlies.
  rewrite (violation_weekend_ban host data r Hkind).
  rewrite (weekend_violation_calendar_east host _ y m d Hdate Hzone).
  unfold Js.getUTCDay, Js.WeekDay, Js.Day.
  rewrite Z.div_mul by (unfold Js.msPerDay; lia).
  tauto.
Qed.

Lemma weekend_ban_east_of_utc_witness :
  NoDup (map AuditRule.id catalog)
  /\ Js.parseCalendarDate (ReceiptData.date receipt_sat) = Some (2024, 1, 6)
  /\ 0 <= Js.LocalTZA hostEast8 (Js.MakeDay 2024 1 6 * Js.msPerDay)
     < Js.msPerDay
  /\ (In "r3" (AuditResult.triggeredRules
                 (evaluateRules hostEast8 receipt_sat catalog None))
      <-> (Js.MakeDay 2024 1 6 + 4) mod 7 = 6
          \/ (Js.MakeDay 2024 1 6 + 4) mod 7 = 0).
Proof.
  pose proof catalog_ids_distinct as H.
  assert (Hin : In rule_weekend catalog) by (simpl; tauto).
  assert (Hz : 0 <= Js.LocalTZA hostEast8 (Js.MakeDay 2024 1 6 * Js.msPerDay)
               < Js.msPerDay) by (simpl; unfold Js.msPerDay; lia).
  split; [exact H|]; split; [reflexivity|]; split; [exact Hz|].
  exact (weekend_ban_east_of_utc hostEast8 receipt_sat catalog None
           rule_weekend 2024 1 6 H Hin eq_refl eq_refl eq_refl eq_refl
           eq_refl Hz).
Defined.

(** * Further properties of the stored request types *)

Lemma legacy_match_relink (rules : list AuditRule.t) (rt : RequestType.t)
      (r : AuditRule.t) :
  legacy_match (relink rules rt) r = legacy_match rt r.
Proof. reflexivity. Qed.

Lemma relink_relink (rules : list AuditRule.t) (rt : RequestType.t) :
  relink rules (relink rules rt) = relink rules rt.
Proof. reflexivity. Qed.

Lemma migrate_keeps_rules (db : Tables) :
  rules_table (migrate_request_types db) = rules_table db.
Proof.
  unfold migrate_request_types.
  now destruct (needs_migration (request_types_table db)).
Qed.

Lemma needs_migration_migrateLinkage (rts : list RequestType.t)
      (rules : list AuditRule.t) :
  needs_migration (migrateLinkage rts rules) = false.
Proof. now destruct rts. Qed.

Lemma needs_migration_after (db : Tables) :
  needs_migration (request_types_table (migrate_request_types db)) = false.
Proof.
  unfold migrate_request_types.
  destruct (needs_migration (request_types_table db)) eqn:E; simpl.
  - apply needs_migration_migrateLinkage.
  - exact E.
Qed.

(** X9: the migration runs at most once: after the migration step the
    guard no longer holds, so a second step changes nothing; and the
    mapping itself, applied to its own output with the same rules, gives
    that output again. *)
Theorem migration_is_idempotent (db : Tables) :
  needs_migration (request_types_table (migrate_request_types db)) = false
  /\ migrate_request_types (migrate_request_types db)
     = migrate_request_types db
  /\ migrateLinkage
       (migrateLinkage (request_types_table db) (rules_table db))
       (rules_table db)
     = migrateLinkage (request_types_table db) (rules_table db).
Proof.
  pose proof (needs_migration_after db) as G.
  split; [exact G|]; split.
  - unfold migrate_request_types at 1; now rewrite G.
  - unfold migrateLinkage; rewrite map_map.
    apply map_ext; intros rt; apply relink_relink.
Qed.

Lemma last_char_app (s t : string) :
  t <> "" -> last_char (s ++ t) = last_char t.
Proof.
  intros N; induction s as [|c s IH]; simpl; [reflexivity|].
  rewrite IH; destruct (s ++ t)%string eqn:E; [|reflexivity].
  destruct s; simpl in E; [congruence | discriminate].
Qed.

Lemma seed_id_last (n : Z) (d : string) :
  d <> "" -> last_char ("rt_" ++ decimal n ++ "_" ++ d) = last_char d.
Proof.
  intros N.
  rewrite (last_char_app "rt_") by (destruct (decimal n); discriminate).
  rewrite (last_char_app (decimal n)) by discriminate.
  now rewrite (last_char_app "_").
Qed.

Lemma seed_ids_distinct (now : nat -> Z) (rules : list AuditRule.t) :
  NoDup (map RequestType.id (default_request_types now rules)).
Proof.
  apply (NoDup_map_inv last_char).
  unfold default_request_types, DEFAULT_REQUEST_TYPES_LIST.
  cbn [mapi_from map RequestType.id].
  rewrite !seed_id_last by (vm_compute; discriminate).
  vm_compute; repeat constructor; simpl; intuition discriminate.
Qed.

Lemma seed_links (now : nat -> Z) (rules : list AuditRule.t) :
  Forall (fun rt => RequestType.linkedRuleIds rt
                    = Some (map AuditRule.id rules))
         (default_request_types now rules).
Proof.
  unfold default_request_types, DEFAULT_REQUEST_TYPES_LIST; simpl.
  repeat constructor.
Qed.

Lemma seed_names (now : nat -> Z) (rules : list AuditRule.t) :
  map RequestType.name (default_request_types now rules)
  = DEFAULT_REQUEST_TYPES_LIST.
Proof. reflexivity. Qed.

Lemma init_request_types_fresh (now : nat -> Z) (db : Tables) :
  request_types_table db = [] ->
  init_request_types now db
  = {| rules_table := rules_table db;
       request_types_table := default_request_types now (rules_table db) |}.
Proof.
  intros E; unfold init_request_types, seed_request_types; rewrite E.
  reflexivity.
Qed.

Lemma migrate_nonempty (db : Tables) :
  request_types_table db <> [] ->
  request_types_table (migrate_request_types db) <> [].
Proof.
  intros N; unfold migrate_request_types.
  destruct (needs_migration (request_types_table db)); simpl; [|exact N].
  destruct (request_types_table db); [congruence | discriminate].
Qed.

Lemma seed_nonempty (now : nat -> Z) (db : Tables) :
  request_types_table (seed_request_types now db) <> [].
Proof.
  unfold seed_request_types.
  destruct (request_types_table db) as [|rt l] eqn:E; simpl.
  - discriminate.
  - rewrite E; discriminate.
Qed.

(** X10: after the seeding and the migration of [db.init] the table of
    request types is not empty and its first row has its list of links, so
    running both again, at any time, changes nothing; the table of rules is
    not written.  On an empty table the result is one request type per
    default name, in that order, each linked to every rule of the table,
    with ids that differ from one another whatever the clock returns. *)
Theorem request_types_after_init (now now' : nat -> Z) (db : Tables) :
  let db' := init_request_types now db in
  rules_table db' = rules_table db
  /\ request_types_table db' <> []
  /\ needs_migration (request_types_table db') = false
  /\ init_request_types now' db' = db'
  /\ (request_types_table db = [] ->
      map RequestType.name (request_types_table db')
      = DEFAULT_REQUEST_TYPES_LIST
      /\ Forall (fun rt => RequestType.linkedRuleIds rt
                           = Some (map AuditRule.id (rules_table db)))
                (request_types_table db')
      /\ NoDup (map RequestType.id (request_types_table db'))).
Proof.
  intros db'.
  assert (R : rules_table db' = rules_table db).
  { unfold db', init_request_types.
    rewrite migrate_keeps_rules; unfold seed_request_types.
    now destruct (List.length (request_types_table db) =? 0)%nat. }
  assert (N : request_types_table db' <> []).
  { unfold db', init_request_types.
    apply migrate_nonempty, seed_nonempty. }
  assert (G : needs_migration (request_types_table db') = false)
    by apply needs_migration_after.
  split; [exact R|]; split; [exact N|]; split; [exact G|]; split.
  - unfold init_request_types at 1, seed_request_types.
    destruct (request_types_table db') as [|rt l] eqn:E; [congruence|].
    simpl; unfold migrate_request_types; now rewrite E, G.
  - intros E; unfold db'; rewrite (init_request_types_fresh now db E).
    cbn [request_types_table].
    split; [exact (seed_names now (rules_table db))|]; split.
    + exact (seed_links now (rules_table db)).
    + exact (seed_ids_distinct now (rules_table db)).
Qed.

Lemma find_type_by_name (l : list RequestType.t) (n : string) :
  In n (map RequestType.name l) ->
  exists rt, find_type l n = Some rt /\ In rt l /\ RequestType.name rt = n.
Proof.
  unfold find_type; induction l as [|a l IH]; simpl; [contradiction|].
  intros H; destruct (String.eqb_spec (RequestType.name a) n) as [E|N].
  - exists a; auto.
  - destruct H as [H|H]; [contradiction|].
    destruct (IH H) as [rt [F [I E]]]; exists rt; auto.
Qed.

Lemma find_type_absent (l : list RequestType.t) (n : string) :
  ~ In n (map RequestType.name l) -> find_type l n = None.
Proof.
  unfold find_type; induction l as [|a l IH]; simpl; [reflexivity|].
  intros H; destruct (String.eqb_spec (RequestType.name a) n) as [E|N].
  - exfalso; apply H; now left.
  - apply IH; intros Hin; apply H; now right.
Qed.

(** X11: on a first start, a receipt filed under any of the default
    request types is checked against every enabled rule: the result is the
    one obtained without a list of active ids. *)
Theorem seeded_types_restrict_nothing
        (host : Js.Host) (data : ReceiptData.t) (now : nat -> Z)
        (db : Tables) (typeName : string)
        (Hfresh : request_types_table db = [])
        (Hname : In typeName DEFAULT_REQUEST_TYPES_LIST) :
  let db' := init_request_types now db in
  evaluateRules host data (rules_table db')
    (getActiveRulesForType (request_types_table db') typeName)
  = evaluateRules host data (rules_table db') None.
Proof.
  intros db'; unfold db'; rewrite (init_request_types_fresh now db Hfresh).
  cbn [request_types_table rules_table].
  rewrite <- (seed_names now (rules_table db)) in Hname.
  destruct (find_type_by_name _ _ Hname) as [rt [F [I _]]].
  unfold getActiveRulesForType; rewrite F.
  pose proof (seed_links now (rules_table db)) as L.
  rewrite Forall_forall in L; rewrite (L rt I).
  apply covering_ids_same_result; intros r Hr _; now apply in_map.
Qed.

Lemma seeded_types_restrict_nothing_witness :
  request_types_table fresh_tables = []
  /\ In "其他" DEFAULT_REQUEST_TYPES_LIST
  /\ evaluateRules hostUTC receipt_sat catalog
       (getActiveRulesForType
          (request_types_table (init_request_types sample_clock fresh_tables))
          "其他")
     = evaluateRules hostUTC receipt_sat catalog None.
Proof.
  assert (Hn : In "其他" DEFAULT_REQUEST_TYPES_LIST)
    by (unfold DEFAULT_REQUEST_TYPES_LIST; simpl; tauto).
  split; [reflexivity|]; split; [exact Hn|].
  exact (seeded_types_restrict_nothing hostUTC receipt_sat sample_clock
           fresh_tables "其他" eq_refl Hn).
Defined.

(** The seeds of a first start with the sample clock. *)
Example seeds_of_first_start :
  map (fun rt => (RequestType.id rt, RequestType.linkedRuleIds rt))
      (firstn 2 (request_types_table
                   (init_request_types sample_clock fresh_tables)))
  = [("rt_1704067200000_0", Some ["r1"; "r2"; "r3"; "r4"; "r5"; "r6"]);
     ("rt_1704067200001_1", Some ["r1"; "r2"; "r3"; "r4"; "r5"; "r6"])].
Proof. vm_compute; reflexivity. Qed.

(** * Properties of the settings page *)

Lemma toggle_rule_twice (id : string) (r : AuditRule.t) :
  toggle_rule id (toggle_rule id r) = r.
Proof.
  unfold toggle_rule.
  destruct (AuditRule.id r =? id)%string eqn:E; simpl; [|now rewrite E].
  rewrite E, negb_involutive; now destruct r.
Qed.

Lemma toggle_rule_id (id : string) (r : AuditRule.t) :
  AuditRule.id (toggle_rule id r) = AuditRule.id r.
Proof. unfold toggle_rule; now destruct (AuditRule.id r =? id)%string. Qed.

(** X12: switching a rule on or off changes the [enabled] flag of the
    rules with that id and nothing else: such a rule keeps its id, name,
    type, value, description, receipt type and legacy tag, every other
    rule is unchanged, the order of the rules is kept, and the request
    types and the state of the rule editor are untouched; switching twice
    restores the settings.  On a read-only page nothing changes. *)
Theorem toggle_flips_only_enabled (id : string) (st : Settings) :
  let st' := handleToggle false id st in
  handleToggle false id st' = st
  /\ map AuditRule.id (rules st') = map AuditRule.id (rules st)
  /\ requestTypes st' = requestTypes st
  /\ isAddingRule st' = isAddingRule st
  /\ editingRuleId st' = editingRuleId st
  /\ Forall2
       (fun r r' =>
          (AuditRule.id r <> id -> r' = r)
          /\ (AuditRule.id r = id ->
              AuditRule.enabled r' = negb (AuditRule.enabled r)
              /\ AuditRule.id r' = AuditRule.id r
              /\ AuditRule.name r' = AuditRule.name r
              /\ AuditRule.type r' = AuditRule.type r
              /\ AuditRule.value r' = AuditRule.value r
              /\ AuditRule.description r' = AuditRule.description r
              /\ AuditRule.receiptType r' = AuditRule.receiptType r
              /\ AuditRule.linkedRequestType r'
                 = AuditRule.linkedRequestType r))
       (rules st) (rules st')
  /\ handleToggle true id st = st.
Proof.
  intros st'; unfold st', handleToggle; simpl.
  split; [|split; [|split; [reflexivity|split; [reflexivity|
    split; [reflexivity|split; [|reflexivity]]]]]].
  - rewrite map_map.
    rewrite (map_ext _ (fun r => r)) by (intros r; apply toggle_rule_twice).
    rewrite map_id; now destruct st.
  - rewrite map_map; apply map_ext; intros r; apply toggle_rule_id.
  - induction (rules st) as [|r l IH]; simpl; constructor; auto.
    unfold toggle_rule.
    destruct (String.eqb_spec (AuditRule.id r) id); simpl; split;
      intros; try congruence; try reflexivity.
    repeat split.
Qed.

Lemma fires_toggled_off host data active id r :
  AuditRule.id r = id -> AuditRule.enabled r = true ->
  fires host data active (toggle_rule id r) = false.
Proof.
  intros E En; unfold toggle_rule; rewrite <- E, String.eqb_refl.
  unfold fires; simpl; now rewrite En.
Qed.

Lemma toggle_rule_other (id : string) (r : AuditRule.t) :
  AuditRule.id r <> id -> toggle_rule id r = r.
Proof.
  intros N; unfold toggle_rule.
  now destruct (String.eqb_spec (AuditRule.id r) id).
Qed.

Lemma fired_after_toggle host data active id (l : list AuditRule.t) :
  (forall r, In r l -> AuditRule.id r = id -> AuditRule.enabled r = true) ->
  filter (fires host data active) (map (toggle_rule id) l)
  = filter (fires host data active)
           (filter (fun r => negb (AuditRule.id r =? id)%string) l).
Proof.
  induction l as [|r l IH]; simpl; intros Hon; [reflexivity|].
  rewrite IH by (intros; apply Hon; auto).
  destruct (String.eqb_spec (AuditRule.id r) id) as [Er|Nr]; simpl.
  - rewrite (fires_toggled_off host data active id r Er); auto.
  - now rewrite (toggle_rule_other id r Nr).
Qed.

(** X13: switching off a rule that is on has, on every evaluation, the
    effect of deleting it: if the rules with the given id are all enabled,
    the catalog after [handleToggle] and the catalog after a confirmed
    [handleDeleteRule] give the same result for every receipt and every
    list of active ids. *)
Theorem switching_off_is_like_deleting
        (host : Js.Host) (data : ReceiptData.t)
        (activeRuleIds : option (list string)) (id : string) (st : Settings)
        (Hon : forall r, In r (rules st) -> AuditRule.id r = id ->
                         AuditRule.enabled r = true) :
  evaluateRules host data (rules (handleToggle false id st)) activeRuleIds
  = evaluateRules host data (rules (handleDeleteRule false true id st))
                  activeRuleIds.
Proof.
  unfold handleToggle, handleDeleteRule; simpl.
  rewrite !evaluateRules_eta.
  now rewrite (fired_after_toggle host data activeRuleIds id (rules st) Hon).
Qed.

Lemma switching_off_is_like_deleting_witness :
  (forall r, In r (rules settings_sample) -> AuditRule.id r = "r1" ->
             AuditRule.enabled r = true)
  /\ evaluateRules hostUTC receipt_sat
       (rules (handleToggle false "r1" settings_sample)) None
     = evaluateRules hostUTC receipt_sat
         (rules (handleDeleteRule false true "r1" settings_sample)) None
  /\ AuditResult.triggeredRules
       (evaluateRules hostUTC receipt_sat
          (rules (handleToggle false "r1" settings_sample)) None)
     = ["r2"; "r3"].
Proof.
  assert (H : forall r, In r (rules settings_sample) ->
                        AuditRule.id r = "r1" -> AuditRule.enabled r = true).
  { intros r Hr E; simpl in Hr.
    destruct Hr as [<-|[<-|[<-|[<-|[<-|[<-|[]]]]]]]; try reflexivity;
      discriminate. }
  split; [exact H|]; split; [|reflexivity].
  exact (switching_off_is_like_deleting hostUTC receipt_sat None "r1"
           settings_sample H).
Defined.

(** X14: once a rule is deleted its id is never reported again, for any
    receipt, any host and any list of active ids, even a list that still
    holds the id. *)
Theorem deleted_rule_is_never_reported
        (host : Js.Host) (data : ReceiptData.t)
        (activeRuleIds : option (list string)) (id : string) (st : Settings) :
  Forall (fun i => i <> id)
         (AuditResult.triggeredRules
            (evaluateRules host data
               (rules (handleDeleteRule false true id st)) activeRuleIds)).
Proof.
  apply Forall_forall; intros i H E; subst i.
  apply in_triggered in H; destruct H as [r [Hr [E _]]].
  unfold handleDeleteRule in Hr; simpl in Hr.
  apply filter_In in Hr; destruct Hr as [_ Hr].
  now rewrite E, String.eqb_refl in Hr.
Qed.

Lemma find_type_map_link (newId : string) (l : list RequestType.t)
      (n : string) :
  find_type (map (link_new newId) l) n
  = option_map (link_new newId) (find_type l n).
Proof.
  unfold find_type; induction l as [|a l IH]; simpl; [reflexivity|].
  destruct (RequestType.name a =? n)%string; [reflexivity | exact IH].
Qed.

(** After [link_new] a rule with the new id passes the first test of the
    loop under every request type name, known or not. *)
Lemma new_rule_is_candidate (newId : string) (l : list RequestType.t)
      (typeName : string) (r : AuditRule.t) :
  AuditRule.id r = newId ->
  not_activated (getActiveRulesForType (map (link_new newId) l) typeName) r
  = false.
Proof.
  intros E; unfold getActiveRulesForType; rewrite find_type_map_link.
  destruct (find_type l typeName) as [rt|]; simpl; [|reflexivity].
  apply negb_false_iff, array_includes_In; rewrite E.
  apply in_or_app; right; now left.
Qed.

Lemma link_new_all (newId : string) (l : list RequestType.t) :
  Forall2
    (fun rt rt' =>
       RequestType.id rt' = RequestType.id rt
       /\ RequestType.name rt' = RequestType.name rt
       /\ RequestType.linkedRuleIds rt'
          = Some (links_or_empty rt ++ [newId])%list)
    l (map (link_new newId) l).
Proof. induction l as [|rt l IH]; simpl; constructor; auto. Qed.

(** X15: adding a preset appends one enabled rule with the new id and the
    fields of the preset, keeps the rules that were there, and appends the
    new id to the links of every request type (a request type without a
    list gets the list made of the new id alone); the new rule is
    therefore a candidate under every request type name.  On a read-only
    page nothing changes. *)
Theorem preset_is_linked_to_every_type
        (newId : string) (preset : Preset.t) (st : Settings) :
  let st' := handleAddPreset false newId preset st in
  (exists rule,
     rules st' = (rules st ++ [rule])%list
     /\ AuditRule.id rule = newId
     /\ AuditRule.enabled rule = true
     /\ AuditRule.type rule = Preset.type preset
     /\ AuditRule.value rule = Preset.value preset
     /\ (forall typeName,
           not_activated
             (getActiveRulesForType (requestTypes st') typeName) rule
           = false))
  /\ Forall2
       (fun rt rt' =>
          RequestType.id rt' = RequestType.id rt
          /\ RequestType.name rt' = RequestType.name rt
          /\ RequestType.linkedRuleIds rt'
             = Some (links_or_empty rt ++ [newId])%list)
       (requestTypes st) (requestTypes st')
  /\ handleAddPreset true newId preset st = st.
Proof.
  intros st'; unfold st', handleAddPreset; simpl.
  split; [|split; [apply link_new_all | reflexivity]].
  eexists; split; [reflexivity|]; simpl.
  repeat split; intros typeName; now apply new_rule_is_candidate.
Qed.

Lemma edit_rules_frame (newRule : NewRule.t) (e : string)
      (l : list AuditRule.t) :
  Forall2
    (fun r r' =>
       (AuditRule.id r <> e -> r' = r)
       /\ (AuditRule.id r = e ->
           AuditRule.name r' = NewRule.name newRule
           /\ AuditRule.type r' = NewRule.type newRule
           /\ AuditRule.value r' = NewRule.value newRule))
    l
    (map (fun r => if (AuditRule.id r =? e)%string
                   then edited_rule newRule r else r) l).
Proof.
  induction l as [|r l IH]; simpl; constructor; auto.
  destruct (String.eqb_spec (AuditRule.id r) e); simpl; split;
    intros; try congruence; try reflexivity.
  repeat split.
Qed.

(** X16: saving the rule form.  A form with an empty name or an empty
    string as value is refused and nothing changes (a numeric value, 0
    included, is accepted).  An accepted edit rewrites name, type, value
    and description of the rules with the edited id and keeps the ids, the
    [enabled] flags, the order of the rules and every request type.  An
    accepted creation appends one enabled rule whose id is the decimal
    clock reading and appends that id to the links of every request type,
    so the rule is a candidate under every request type name.  In both
    cases the form is reset.  On a read-only page nothing changes. *)
Theorem save_rule_validates_and_links
        (now : Z) (newRule : NewRule.t) (st : Settings) :
  let res := handleSaveRule false now newRule st in
  (NewRule.name newRule = "" \/ NewRule.value newRule = VStr "" ->
   res = (st, newRule))
  /\ (NewRule.name newRule <> "" ->
      value_is_empty (NewRule.value newRule) = false ->
      snd res = blank_rule
      /\ isAddingRule (fst res) = false
      /\ (forall e, editingRuleId st = Some e -> e <> "" ->
            map AuditRule.id (rules (fst res)) = map AuditRule.id (rules st)
            /\ map AuditRule.enabled (rules (fst res))
               = map AuditRule.enabled (rules st)
            /\ requestTypes (fst res) = requestTypes st
            /\ editingRuleId (fst res) = None
            /\ Forall2
                 (fun r r' =>
                    (AuditRule.id r <> e -> r' = r)
                    /\ (AuditRule.id r = e ->
                        AuditRule.name r' = NewRule.name newRule
                        /\ AuditRule.type r' = NewRule.type newRule
                        /\ AuditRule.value r' = NewRule.value newRule))
                 (rules st) (rules (fst res)))
      /\ (editingRuleId st = None \/ editingRuleId st = Some "" ->
          exists rule,
            rules (fst res) = (rules st ++ [rule])%list
            /\ AuditRule.id rule = decimal now
            /\ AuditRule.enabled rule = true
            /\ AuditRule.name rule = NewRule.name newRule
            /\ AuditRule.value rule = NewRule.value newRule
            /\ (forall typeName,
                  not_activated
                    (getActiveRulesForType (requestTypes (fst res)) typeName)
                    rule = false)
            /\ Forall2
                 (fun rt rt' =>
                    RequestType.id rt' = RequestType.id rt
                    /\ RequestType.name rt' = RequestType.name rt
                    /\ RequestType.linkedRuleIds rt'
                       = Some (links_or_empty rt ++ [decimal now])%list)
                 (requestTypes st) (requestTypes (fst res))))
  /\ handleSaveRule true now newRule st = (st, newRule).
Proof.
  intros res; unfold res, handleSaveRule; simpl.
  split; [|split; [|reflexivity]].
  - intros [E|E]; rewrite E; simpl; [reflexivity|].
    now rewrite orb_true_r.
  - intros Hn Hv; apply truthy_nonempty in Hn; rewrite Hn, Hv; simpl.
    assert (Create :
      exists rule,
        (rules st ++ [created_rule (decimal now) newRule])%list
        = (rules st ++ [rule])%list
        /\ AuditRule.id rule = decimal now
        /\ AuditRule.enabled rule = true
        /\ AuditRule.name rule = NewRule.name newRule
        /\ AuditRule.value rule = NewRule.value newRule
        /\ (forall typeName,
              not_activated
                (getActiveRulesForType
                   (map (link_new (decimal now)) (requestTypes st)) typeName)
                rule = false)
        /\ Forall2
             (fun rt rt' =>
                RequestType.id rt' = RequestType.id rt
                /\ RequestType.name rt' = RequestType.name rt
                /\ RequestType.linkedRuleIds rt'
                   = Some (links_or_empty rt ++ [decimal now])%list)
             (requestTypes st)
             (map (link_new (decimal now)) (requestTypes st))).
    { eexists; split; [reflexivity|]; simpl; repeat split.
      - intros typeName; now apply new_rule_is_candidate.
      - apply link_new_all. }
    destruct (editingRuleId st) as [e|] eqn:Ed.
    + destruct (Js.truthy e) eqn:T; simpl.
      * apply truthy_nonempty in T.
        split; [reflexivity|]; split; [reflexivity|]; split.
        -- intros e' E _; injection E as <-.
           split; [|split; [|split; [reflexivity|split; [reflexivity|]]]].
           ++ rewrite map_map; apply map_ext; intros r.
              now destruct (AuditRule.id r =? e)%string.
           ++ rewrite map_map; apply map_ext; intros r.
              now destruct (AuditRule.id r =? e)%string.
           ++ apply edit_rules_frame.
        -- intros [E|E]; [discriminate | congruence].
      * split; [reflexivity|]; split; [reflexivity|]; split.
        -- intros e' E N; injection E as <-.
           apply truthy_nonempty in N; congruence.
        -- intros _; exact Create.
    + split; [reflexivity|]; split; [reflexivity|]; split.
      * intros e' E; discriminate.
      * intros _; exact Create.
Qed.

(** A creation and an edit on the sample settings. *)
Example save_rule_samples :
  let created :=
    fst (handleSaveRule false 1704067200000 form_filled
           {| rules := [rule_max]; requestTypes := requestTypes settings_sample;
              isAddingRule := true; editingRuleId := None |}) in
  let edited := fst (handleSaveRule false 1704067200000 form_filled
                                    settings_sample) in
  map AuditRule.id (rules created) = ["r1"; "1704067200000"]
  /\ map RequestType.linkedRuleIds (requestTypes created)
     = [Some ["r2"; "r1"; "r3"; "r2"; "r4"; "1704067200000"];
        Some ["r1"; "1704067200000"]; Some ["1704067200000"]]
  /\ map (fun r => (AuditRule.id r, AuditRule.name r)) (rules edited)
     = [("r1", "r1"); ("r2", "small purchases"); ("r3", "r3"); ("r4", "r4");
        ("r5", "r5"); ("r6", "r6")]
  /\ requestTypes edited = requestTypes settings_sample.
Proof. vm_compute; repeat split. Qed.

(** * Properties of the request types of the settings page *)

Lemma existsb_name (l : list RequestType.t) (n : string) :
  existsb (fun rt => (RequestType.name rt =? n)%string) l = true
  <-> In n (map RequestType.name l).
Proof.
  rewrite existsb_exists, in_map_iff; split.
  - intros [rt [I E]]; apply String.eqb_eq in E; eauto.
  - intros [rt [E I]]; exists rt; split; [assumption|].
    now apply String.eqb_eq.
Qed.

Lemma find_type_app_new (l : list RequestType.t) (rt : RequestType.t) :
  ~ In (RequestType.name rt) (map RequestType.name l) ->
  find_type (l ++ [rt]) (RequestType.name rt) = Some rt.
Proof.
  unfold find_type; induction l as [|a l IH]; simpl; intros H.
  - now rewrite String.eqb_refl.
  - destruct (String.eqb_spec (RequestType.name a) (RequestType.name rt)).
    + exfalso; apply H; now left.
    + apply IH; intros Hin; apply H; now right.
Qed.

Lemma links_valid_app (rules : list AuditRule.t) (l : list RequestType.t)
      (rt : RequestType.t) :
  links_valid rules l ->
  (forall i, In i (links_or_empty rt) -> In i (map AuditRule.id rules)) ->
  links_valid rules (l ++ [rt]).
Proof.
  intros V H rt' i Hin Hi; apply in_app_or in Hin.
  destruct Hin as [Hin|[<-|[]]]; eauto.
Qed.

(** X17: adding a request type.  On a read-only page, for a name that is
    blank once trimmed, or for a name that a request type already has,
    nothing changes.  Otherwise one request type is appended, named by the
    trimmed input and linked to every rule of the catalog, so a receipt
    filed under it is checked as if no list of active ids were given.
    Names that were distinct stay distinct, and links that all point to
    rules of the catalog still do. *)
Theorem added_type_links_all_rules
        (trim : string -> string) (readOnly : bool) (now : Z)
        (rules : list AuditRule.t) (newRequestType : string)
        (requestTypes : list RequestType.t) :
  let res := handleAddRequestType trim readOnly now rules newRequestType
                                  requestTypes in
  let name := trim newRequestType in
  (readOnly = true \/ name = ""
   \/ In name (map RequestType.name requestTypes) ->
   res = (requestTypes, newRequestType))
  /\ (readOnly = false -> name <> "" ->
      ~ In name (map RequestType.name requestTypes) ->
      exists newType,
        res = ((requestTypes ++ [newType])%list, "")
        /\ RequestType.id newType = "rt_" ++ decimal now
        /\ RequestType.name newType = name
        /\ RequestType.linkedRuleIds newType = Some (map AuditRule.id rules)
        /\ forall host data,
             evaluateRules host data rules
                           (getActiveRulesForType (fst res) name)
             = evaluateRules host data rules None)
  /\ (NoDup (map RequestType.name requestTypes) ->
      NoDup (map RequestType.name (fst res)))
  /\ (links_valid rules requestTypes -> links_valid rules (fst res)).
Proof.
  intros res name; unfold res, handleAddRequestType; fold name.
  destruct readOnly; simpl.
  { split; [reflexivity|]; split; [discriminate|]; split; auto. }
  destruct (Js.truthy name) eqn:T; simpl.
  2:{ assert (name = "").
      { unfold Js.truthy in T; apply negb_false_iff in T.
        now apply String.eqb_eq. }
      split; [reflexivity|]; split; [congruence|]; split; auto. }
  apply truthy_nonempty in T.
  destruct (existsb (fun rt => (RequestType.name rt =? name)%string)
                    requestTypes) eqn:X.
  { apply existsb_name in X.
    split; [reflexivity|]; split; [contradiction|]; split; auto. }
  assert (N : ~ In name (map RequestType.name requestTypes)).
  { intros Hin; apply existsb_name in Hin; congruence. }
  set (newType := {| RequestType.id := "rt_" ++ decimal now;
                     RequestType.name := name;
                     RequestType.linkedRuleIds :=
                       Some (map AuditRule.id rules) |}).
  split; [|split; [|split]].
  - intros [H|[H|H]]; [discriminate | contradiction | contradiction].
  - intros _ _ _; exists newType; repeat split.
    intros host data; simpl; unfold getActiveRulesForType.
    pose proof (find_type_app_new requestTypes newType N) as F.
    unfold newType in F; simpl in F; rewrite F; simpl.
    apply covering_ids_same_result; intros r Hr _; now apply in_map.
  - intros Hnd; simpl; rewrite map_app; simpl.
    apply NoDup_app; auto.
    + repeat constructor; intros [].
    + intros x Hx [<-|[]]; contradiction.
  - intros V; simpl; apply links_valid_app; auto.
Qed.

Lemma NoDup_map_In_same {A B : Type} (f : A -> B) (l : list A) (x y : A) :
  NoDup (map f l) -> In x l -> In y l -> f x = f y -> x = y.
Proof. intros H; now apply (NoDup_map_In_inj f l H). Qed.

Lemma renamed_names_distinct (id name : string) (links : list string)
      (l : list RequestType.t) :
  NoDup (map RequestType.id l) ->
  NoDup (map RequestType.name l) ->
  existsb (fun rt => (RequestType.name rt =? name)%string
                     && negb (RequestType.id rt =? id)%string) l = false ->
  NoDup (map RequestType.name
           (map (fun t => if (RequestType.id t =? id)%string then
                            {| RequestType.id := RequestType.id t;
                               RequestType.name := name;
                               RequestType.linkedRuleIds := Some links |}
                          else t) l)).
Proof.
  induction l as [|a l IH]; simpl; intros Hi Hn X; [constructor|].
  inversion Hi as [|? ? Hia Hil]; inversion Hn as [|? ? Hna Hnl]; subst.
  apply orb_false_elim in X; destruct X as [Xa Xl].
  assert (Others : forall t, In t l -> RequestType.name t = name ->
                             RequestType.id t = id).
  { intros t Ht E.
    assert (F : (RequestType.name t =? name)%string
                && negb (RequestType.id t =? id)%string = false).
    { rewrite <- not_true_iff_false; intros F; rewrite <- not_true_iff_false in Xl.
      apply Xl, existsb_exists; eauto. }
    apply String.eqb_eq in E; rewrite E in F; simpl in F.
    apply negb_false_iff in F; now apply String.eqb_eq. }
  constructor; [|auto].
  rewrite map_map, in_map_iff; intros [t [E Ht]].
  destruct (String.eqb_spec (RequestType.id a) id) as [Ea|Na]; simpl in *.
  - destruct (String.eqb_spec (RequestType.id t) id) as [Et|Nt]; simpl in E.
    + apply Hia; rewrite Ea, <- Et; now apply in_map.
    + apply Nt, Others; auto.
  - destruct (String.eqb_spec (RequestType.id t) id) as [Et|Nt]; simpl in E.
    + rewrite <- E in Xa; rewrite String.eqb_refl in Xa; discriminate Xa.
    + apply Hna; rewrite <- E; now apply in_map.
Qed.

(** X18: saving the editor of a request type never breaks the uniqueness
    of names: when ids and names are distinct before, names are distinct
    afterwards, ids and order are kept, and every request type with
    another id is unchanged.  A name that is blank once trimmed is refused.
    Opening the editor on a request type that has a list of links and a
    trimmed, non-empty name and saving at once leaves the request types as
    they were. *)
Theorem renaming_keeps_names_distinct
        (trim : string -> string) (id : string)
        (requestTypes : list RequestType.t) (ed : TypeEditor)
        (Hids : NoDup (map RequestType.id requestTypes))
        (Hnames : NoDup (map RequestType.name requestTypes)) :
  let res := saveEditType trim id requestTypes ed in
  NoDup (map RequestType.name (fst res))
  /\ map RequestType.id (fst res) = map RequestType.id requestTypes
  /\ Forall2 (fun rt rt' => RequestType.id rt <> id -> rt' = rt)
             requestTypes (fst res)
  /\ (trim (editTypeName ed) = "" -> res = (requestTypes, ed))
  /\ (forall rt l ed0,
        In rt requestTypes ->
        RequestType.linkedRuleIds rt = Some l ->
        trim (RequestType.name rt) = RequestType.name rt ->
        RequestType.name rt <> "" ->
        fst (saveEditType trim (RequestType.id rt) requestTypes
                          (startEditType false rt ed0))
        = requestTypes).
Proof.
  intros res.
  assert (Refl : Forall2 (fun rt rt' => RequestType.id rt <> id -> rt' = rt)
                         requestTypes requestTypes).
  { clear; induction requestTypes; constructor; auto. }
  split; [|split; [|split; [|split]]].
  - unfold res, saveEditType.
    destruct (negb (Js.truthy (trim (editTypeName ed)))); [exact Hnames|].
    destruct (existsb _ requestTypes) eqn:X; [exact Hnames|].
    simpl; now apply renamed_names_distinct.
  - unfold res, saveEditType.
    destruct (negb (Js.truthy (trim (editTypeName ed)))); [reflexivity|].
    destruct (existsb _ requestTypes); [reflexivity|].
    simpl; rewrite map_map; apply map_ext; intros t.
    now destruct (RequestType.id t =? id)%string.
  - unfold res, saveEditType.
    destruct (negb (Js.truthy (trim (editTypeName ed)))); [exact Refl|].
    destruct (existsb _ requestTypes); [exact Refl|].
    simpl; clear; induction requestTypes as [|t l IH]; simpl; constructor; auto.
    destruct (String.eqb_spec (RequestType.id t) id); congruence.
  - intros E; unfold res, saveEditType; now rewrite E.
  - intros rt l ed0 Hin Hl Ht Hne.
    unfold saveEditType, startEditType; simpl; rewrite Ht.
    apply truthy_nonempty in Hne; rewrite Hne; simpl.
    assert (X : existsb
                  (fun t => (RequestType.name t =? RequestType.name rt)%string
                            && negb (RequestType.id t =? RequestType.id rt)%string)
                  requestTypes = false).
    { rewrite <- not_true_iff_false, existsb_exists; intros [t [It E]].
      apply andb_true_iff in E; destruct E as [E1 E2].
      apply String.eqb_eq in E1.
      rewrite (NoDup_map_In_same RequestType.name requestTypes t rt
                                 Hnames It Hin E1) in E2.
      now rewrite String.eqb_refl in E2. }
    rewrite X; simpl.
    rewrite <- (map_id requestTypes) at 2; apply map_ext_in; intros t It.
    destruct (String.eqb_spec (RequestType.id t) (RequestType.id rt)) as [E|N];
      [|reflexivity].
    rewrite (NoDup_map_In_same RequestType.id requestTypes t rt Hids It Hin E).
    rewrite Hl; destruct rt; simpl in *; congruence.
Qed.

Lemma renaming_keeps_names_distinct_witness :
  NoDup (map RequestType.id (requestTypes settings_sample))
  /\ NoDup (map RequestType.name (requestTypes settings_sample))
  /\ map RequestType.name
         (fst (saveEditType trim_spaces "rt_meals"
                 (requestTypes settings_sample)
                 {| editingTypeId := Some "rt_meals";
                    editTypeName := "  Food  ";
                    editTypeRules := ["r4"]; ruleSearchTerm := "" |}))
     = ["Travel"; "Food"; "Other"]
  /\ NoDup
       (map RequestType.name
            (fst (saveEditType trim_spaces "rt_meals"
                    (requestTypes settings_sample)
                    {| editingTypeId := Some "rt_meals";
                       editTypeName := "  Food  ";
                       editTypeRules := ["r4"]; ruleSearchTerm := "" |}))).
Proof.
  assert (H1 : NoDup (map RequestType.id (requestTypes settings_sample))).
  { simpl; repeat constructor; simpl; intuition discriminate. }
  assert (H2 : NoDup (map RequestType.name (requestTypes settings_sample))).
  { simpl; repeat constructor; simpl; intuition discriminate. }
  split; [exact H1|]; split; [exact H2|]; split; [reflexivity|].
  exact (proj1 (renaming_keeps_names_distinct trim_spaces "rt_meals"
                  (requestTypes settings_sample) _ H1 H2)).
Defined.

Lemma prune_other (id x : string) (l : list string) :
  x <> id ->
  (In x (filter (fun i => negb (i =? id)%string) l) <-> In x l).
Proof.
  intros N; rewrite filter_In; split; [tauto|].
  intros H; split; [assumption|].
  now destruct (String.eqb_spec x id).
Qed.

(** X19: ticking a rule in the editor of a request type flips its
    membership in the selection and leaves the membership of every other
    id as it was; a selection without repetitions stays so; ticking twice
    an id that was not selected gives the selection back. *)
Theorem toggle_link_flips_membership (ruleId : string) (prev : list string) :
  let next := toggleTypeRule ruleId prev in
  (In ruleId next <-> ~ In ruleId prev)
  /\ (forall x, x <> ruleId -> (In x next <-> In x prev))
  /\ (NoDup prev -> NoDup next)
  /\ (~ In ruleId prev -> toggleTypeRule ruleId next = prev).
Proof.
  intros next; unfold next, toggleTypeRule.
  destruct (Js.array_includes prev ruleId) eqn:I.
  - apply array_includes_In in I.
    split; [|split; [|split]].
    + split; [intros H; now apply prune_absent in H | tauto].
    + intros x N; now apply prune_other.
    + intros H; eapply Subseq_NoDup; [apply Subseq_filter | exact H].
    + tauto.
  - assert (N : ~ In ruleId prev).
    { intros H; apply array_includes_In in H; congruence. }
    split; [|split; [|split]].
    + split; [tauto|]; intros _; apply in_or_app; right; now left.
    + intros x Nx; rewrite in_app_iff; simpl; split; [|tauto].
      intros [H|[H|[]]]; [assumption | congruence].
    + intros H; apply NoDup_app; auto.
      * repeat constructor; intros [].
      * intros x Hx [<-|[]]; contradiction.
    + intros _.
      assert (I2 : Js.array_includes (prev ++ [ruleId]) ruleId = true).
      { apply array_includes_In, in_or_app; right; now left. }
      rewrite I2, filter_app; simpl; rewrite String.eqb_refl; simpl.
      now rewrite app_nil_r, prune_id.
Qed.

Lemma Set_add_In (s : list string) (i x : string) :
  In x (Set_add s i) <-> In x s \/ x = i.
Proof.
  unfold Set_add; destruct (Js.array_includes s i) eqn:I.
  - apply array_includes_In in I; split; [tauto|].
    intros [H| ->]; assumption.
  - rewrite in_app_iff; simpl; split; intros [H|H]; auto.
    + destruct H as [H|[]]; auto.
Qed.

Lemma Set_add_NoDup (s : list string) (i : string) :
  NoDup s -> NoDup (Set_add s i).
Proof.
  intros H; unfold Set_add; destruct (Js.array_includes s i) eqn:I; [exact H|].
  apply NoDup_app; auto.
  - repeat constructor; intros [].
  - intros x Hx [<-|[]]; apply array_includes_In in Hx; congruence.
Qed.

Lemma Set_add_all_In (l : list string) : forall s x,
  In x (fold_left Set_add l s) <-> In x s \/ In x l.
Proof.
  induction l as [|i l IH]; simpl; intros s x; [tauto|].
  rewrite IH, Set_add_In; split; intros [H|H]; auto.
  - destruct H; auto.
  - destruct H as [<-|H]; auto.
Qed.

Lemma Set_add_all_NoDup (l : list string) : forall s,
  NoDup s -> NoDup (fold_left Set_add l s).
Proof.
  induction l as [|i l IH]; simpl; intros s H; [exact H|].
  now apply IH, Set_add_NoDup.
Qed.

(** X20: the "select all" button of the editor of a request type only
    acts on the rules whose name contains the search term, letter case
    apart: the selection of any other id is untouched, so that a rule
    listed for its description alone is neither selected nor deselected.
    If all those rules were selected they are all deselected, the rest
    keeping its order; otherwise they are all selected, what was selected
    stays selected, and the new selection has no repetition.  With no
    rule matching, the selection is returned as it was. *)
Theorem select_all_acts_on_name_matches
        (host : Js.Host) (rules : list AuditRule.t) (term : string)
        (prev : list string) :
  let visible := visibleRuleIds host rules term in
  let next := toggleAllVisibleRules host rules term prev in
  (forall x, ~ In x visible -> (In x next <-> In x prev))
  /\ ((forall x, In x visible -> In x prev) ->
      (forall x, In x visible -> ~ In x next) /\ Subseq next prev)
  /\ (~ (forall x, In x visible -> In x prev) ->
      (forall x, In x visible -> In x next)
      /\ (forall x, In x prev -> In x next)
      /\ NoDup next)
  /\ (visible = [] -> next = prev)
  /\ (NoDup (map AuditRule.id rules) ->
      forall r, In r rules ->
        Js.includes (Js.toLowerCase host (AuditRule.name r))
                    (Js.toLowerCase host term) = false ->
        (In (AuditRule.id r) next <-> In (AuditRule.id r) prev)).
Proof.
  intros visible next.
  assert (All : forallb (fun id => Js.array_includes prev id) visible = true
                <-> (forall x, In x visible -> In x prev)).
  { rewrite forallb_forall; split; intros H x Hx.
    - now apply array_includes_In, H.
    - now apply array_includes_In, H. }
  assert (Hidden : forall x, ~ In x visible -> (In x next <-> In x prev)).
  { intros x Hx; unfold next, toggleAllVisibleRules; fold visible.
    destruct (forallb (fun id => Js.array_includes prev id) visible).
    - rewrite filter_In, negb_true_iff; split; [tauto|].
      intros H; split; [assumption|].
      rewrite <- not_true_iff_false, array_includes_In; exact Hx.
    - unfold Set_of; rewrite !Set_add_all_In; simpl; tauto. }
  split; [exact Hidden|]; split; [|split; [|split]].
  - intros H; apply All in H.
    unfold next, toggleAllVisibleRules; fold visible; rewrite H; split.
    + intros x Hx Hin; apply filter_In in Hin; destruct Hin as [_ Hin].
      apply array_includes_In in Hx; rewrite Hx in Hin; discriminate.
    + apply Subseq_filter.
  - intros H.
    assert (F : forallb (fun id => Js.array_includes prev id) visible = false).
    { rewrite <- not_true_iff_false; intros T; apply H, All, T. }
    unfold next, toggleAllVisibleRules; fold visible; rewrite F.
    unfold Set_of; split; [|split].
    + intros x Hx; rewrite !Set_add_all_In; auto.
    + intros x Hx; rewrite !Set_add_all_In; auto.
    + apply Set_add_all_NoDup, Set_add_all_NoDup; constructor.
  - intros E; unfold next, toggleAllVisibleRules; fold visible; rewrite E.
    simpl; clear; induction prev as [|a l IH]; simpl; [reflexivity|].
    now rewrite IH.
  - intros Hnd r Hr Hn; apply Hidden.
    unfold visible, visibleRuleIds; rewrite in_map_iff.
    intros [r' [E Hr']]; apply filter_In in Hr'; destruct Hr' as [Hr' M].
    rewrite (NoDup_map_In_same AuditRule.id rules r' r Hnd Hr' Hr E) in M.
    congruence.
Qed.

(** Select all, then deselect all, on the sample catalog with the term
    "R1" and a selection that holds a hidden id twice. *)
Example select_all_samples :
  visibleRuleIds hostUTC catalog "R1" = ["r1"]
  /\ toggleAllVisibleRules hostUTC catalog "R1" ["r4"; "r4"] = ["r4"; "r1"]
  /\ toggleAllVisibleRules hostUTC catalog "R1" ["r4"; "r1"] = ["r4"]
  /\ toggleAllVisibleRules hostUTC catalog "zzz" ["r4"; "r4"] = ["r4"; "r4"].
Proof. vm_compute; repeat split. Qed.

(** * Properties of the requests *)

Lemma find_request (id : string) (l : list ReimbursementRequest.t) :
  match find (fun r => (ReimbursementRequest.id r =? id)%string) l with
  | Some req => In req l /\ ReimbursementRequest.id req = id
  | None => ~ In id (map ReimbursementRequest.id l)
  end.
Proof.
  induction l as [|a l IH]; simpl; [tauto|].
  destruct (String.eqb_spec (ReimbursementRequest.id a) id) as [E|N].
  - auto.
  - destruct (find _ l); [tauto|]; intros [H|H]; auto.
Qed.

Lemma Forall2_same {A : Type} (R : A -> A -> Prop) (l : list A) :
  (forall x, In x l -> R x x) -> Forall2 R l l.
Proof.
  induction l as [|a l IH]; intros H; constructor.
  - apply H; now left.
  - apply IH; intros; apply H; now right.
Qed.

(** X21: a status update keeps the list of requests in place, ids and
    order included, and does nothing for an id that no request has.  When
    ids are distinct, every other request is unchanged, and the request
    with that id gets the new status and exactly one more history entry
    after the ones it had; the entry carries the new status, the name of
    the user and the first clock reading, and the receipt data, the audit
    result and the owner of the request are not touched. *)
Theorem status_update_appends_history
        (currentUser : User.t) (t1 t2 id : string)
        (newStatus : RequestStatus.t)
        (requests : list ReimbursementRequest.t) :
  let requests' :=
    handleStatusUpdate currentUser t1 t2 id newStatus requests in
  map ReimbursementRequest.id requests' = map ReimbursementRequest.id requests
  /\ (~ In id (map ReimbursementRequest.id requests) -> requests' = requests)
  /\ (NoDup (map ReimbursementRequest.id requests) ->
      Forall2
        (fun r r' =>
           (ReimbursementRequest.id r <> id -> r' = r)
           /\ (ReimbursementRequest.id r = id ->
               ReimbursementRequest.status r' = newStatus
               /\ ReimbursementRequest.data r' = ReimbursementRequest.data r
               /\ ReimbursementRequest.auditResult r'
                  = ReimbursementRequest.auditResult r
               /\ ReimbursementRequest.employeeId r'
                  = ReimbursementRequest.employeeId r
               /\ ReimbursementRequest.processedBy r'
                  = Some (User.name currentUser)
               /\ ReimbursementRequest.processedAt r' = Some t2
               /\ exists entry,
                    ReimbursementRequest.history r'
                    = Some (history_or_empty r ++ [entry])%list
                    /\ RequestHistoryEntry.status entry = newStatus
                    /\ RequestHistoryEntry.actorName entry
                       = User.name currentUser
                    /\ RequestHistoryEntry.timestamp entry = t1))
        requests requests').
Proof.
  intros requests'; unfold requests', handleStatusUpdate.
  pose proof (find_request id requests) as F.
  destruct (find _ requests) as [req|].
  - destruct F as [Hin Hid]; split; [|split].
    + rewrite map_map; apply map_ext; intros r.
      destruct (String.eqb_spec (ReimbursementRequest.id r) id);
        [simpl; congruence | reflexivity].
    + intros N; exfalso; apply N; rewrite <- Hid; now apply in_map.
    + intros Hnd.
      assert (Same : forall r, In r requests ->
                               ReimbursementRequest.id r = id -> r = req).
      { intros r Hr E.
        apply (NoDup_map_In_same ReimbursementRequest.id requests r req Hnd Hr Hin).
        congruence. }
      clear Hin Hnd.
      induction requests as [|r l IH]; simpl; constructor.
      * destruct (String.eqb_spec (ReimbursementRequest.id r) id) as [E|N];
          split; intros; try congruence; try reflexivity.
        rewrite <- (Same r (or_introl eq_refl) E).
        repeat split; eexists; repeat split.
      * apply IH; intros; apply Same; simpl; auto.
  - split; [reflexivity|]; split; [reflexivity|].
    intros _; apply Forall2_same; intros r Hr.
    split; [reflexivity|]; intros E; exfalso; apply F.
    rewrite <- E; now apply in_map.
Qed.

Lemma status_eqb_eq (a b : RequestStatus.t) :
  RequestStatus.eqb a b = true <-> a = b.
Proof. destruct a, b; simpl; split; intros; congruence. Qed.

Lemma auto_note_cases (currentUser : User.t) (req : ReimbursementRequest.t)
      (newStatus : RequestStatus.t) :
  (auto_note currentUser req newStatus = HIGH_RISK_NOTE
   /\ privileged currentUser = true
   /\ 50 < AuditResult.score (ReimbursementRequest.auditResult req)
   /\ (newStatus = RequestStatus.APPROVED \/ newStatus = RequestStatus.REJECTED))
  \/ (auto_note currentUser req newStatus = ""
      /\ ~ (privileged currentUser = true
            /\ 50 < AuditResult.score (ReimbursementRequest.auditResult req)
            /\ (newStatus = RequestStatus.APPROVED
                \/ newStatus = RequestStatus.REJECTED))).
Proof.
  unfold auto_note.
  destruct (privileged currentUser); simpl;
    [|right; split; [reflexivity | intros [H _]; discriminate]].
  destruct (Z.ltb_spec 50 (AuditResult.score
                             (ReimbursementRequest.auditResult req))); simpl;
    [|right; split; [reflexivity | intros [_ [H' _]]; lia]].
  destruct newStatus; simpl;
    try (left; repeat split; auto; fail);
    right; split; try reflexivity; intros [_ [_ [E|E]]]; discriminate.
Qed.

(** X22: the automatic comment of a status update.  The note for
    high-risk requests is recorded exactly when an auditor or an
    administrator approves or rejects a request whose score is above 50:
    then the history entry carries the note and the comments of the
    request become the note, placed on a new line after the comments that
    were there; in every other case the entry carries no note and the
    comments are unchanged.  Comments are never removed. *)
Theorem high_risk_note_iff
        (currentUser : User.t) (t1 t2 : string) (newStatus : RequestStatus.t)
        (req : ReimbursementRequest.t) :
  let req' := updated_request currentUser t1 t2 newStatus req in
  let decisive :=
    privileged currentUser = true
    /\ 50 < AuditResult.score (ReimbursementRequest.auditResult req)
    /\ (newStatus = RequestStatus.APPROVED
        \/ newStatus = RequestStatus.REJECTED) in
  (decisive ->
   (exists h, ReimbursementRequest.history req'
              = Some (h ++ [{| RequestHistoryEntry.timestamp := t1;
                               RequestHistoryEntry.actorName :=
                                 User.name currentUser;
                               RequestHistoryEntry.action :=
                                 actionText newStatus;
                               RequestHistoryEntry.status := newStatus;
                               RequestHistoryEntry.note :=
                                 Some HIGH_RISK_NOTE |}])%list)
   /\ ReimbursementRequest.comments req'
      = Some (match ReimbursementRequest.comments req with
              | Some c => if (c =? "")%string then HIGH_RISK_NOTE
                          else c ++ newline ++ HIGH_RISK_NOTE
              | None => HIGH_RISK_NOTE
              end))
  /\ (~ decisive ->
      (exists h e, ReimbursementRequest.history req' = Some (h ++ [e])%list
                   /\ RequestHistoryEntry.note e = None)
      /\ ReimbursementRequest.comments req'
         = ReimbursementRequest.comments req)
  /\ (forall c, ReimbursementRequest.comments req = Some c ->
        exists rest, ReimbursementRequest.comments req'
                     = Some (c ++ rest)%string).
Proof.
  intros req' decisive; unfold req', updated_request.
  destruct (auto_note_cases currentUser req newStatus)
    as [[E D]|[E D]]; rewrite E; simpl.
  - split; [|split].
    + intros _; split; [eexists; reflexivity|].
      destruct (ReimbursementRequest.comments req) as [c|]; [|reflexivity].
      unfold Js.truthy; now destruct (c =? "")%string.
    + intros N; exfalso; apply N; exact D.
    + intros c Ec; rewrite Ec; unfold Js.truthy.
      destruct (String.eqb_spec c "") as [->|N]; simpl; eexists; reflexivity.
  - split; [|split].
    + intros H; contradiction.
    + intros _; split; [do 2 eexists; split; reflexivity | reflexivity].
    + intros c Ec; exists ""; rewrite Ec.
      clear; f_equal; induction c; simpl; congruence.
Qed.

(** An auditor rejects the first sample request, whose score is 100, and
    approves the second, whose score is 0. *)
Example status_update_samples :
  let after :=
    handleStatusUpdate user_auditor "t1" "t2" "q2" RequestStatus.APPROVED
      (handleStatusUpdate user_auditor "t1" "t2" "q1" RequestStatus.REJECTED
                          requests_sample) in
  map (fun r => (ReimbursementRequest.id r, ReimbursementRequest.status r,
                 ReimbursementRequest.comments r,
                 List.length (history_or_empty r))) after
  = [("q1", RequestStatus.REJECTED, Some HIGH_RISK_NOTE, 1%nat);
     ("q2", RequestStatus.APPROVED, None, 1%nat);
     ("q3", RequestStatus.PENDING, None, 0%nat)].
Proof. vm_compute; reflexivity. Qed.


Lemma rule_by_id_In (rules : list AuditRule.t) (r : AuditRule.t) :
  NoDup (map AuditRule.id rules) -> In r rules ->
  rule_by_id rules (AuditRule.id r) = Some r.
Proof.
  unfold rule_by_id; induction rules as [|a l IH]; simpl; intros Hnd Hr;
    [contradiction|].
  inversion Hnd as [|? ? Ha Hl]; subst.
  destruct Hr as [->|Hr]; [now rewrite String.eqb_refl|].
  destruct (String.eqb_spec (AuditRule.id a) (AuditRule.id r)) as [E|N].
  - exfalso; apply Ha; rewrite E; now apply in_map.
  - auto.
Qed.

Lemma find_violation_id (rules fired : list AuditRule.t) (field : Field) :
  NoDup (map AuditRule.id rules) ->
  (forall r, In r fired -> In r rules) ->
  find (fun id => match rule_by_id rules id with
                  | None => false
                  | Some rule => field_of_rule field rule
                  end) (map AuditRule.id fired)
  = option_map AuditRule.id (find (field_of_rule field) fired).
Proof.
  intros Hnd; induction fired as [|r l IH]; simpl; intros Hsub;
    [reflexivity|].
  rewrite (rule_by_id_In rules r Hnd) by (apply Hsub; now left).
  destruct (field_of_rule field r); [reflexivity|].
  apply IH; intros; apply Hsub; now right.
Qed.

(** X24: the field highlighted on the upload page.  When rule ids are
    distinct and not empty and the violations of the active item are the
    ids [evaluateRules] reported, a field is marked in error exactly when
    a rule of the kind that belongs to the field fired (amount: MAX_AMOUNT,
    category: FORBIDDEN_CATEGORY, date: WEEKEND_BAN, merchant name:
    REQUIRED_FIELD), and the message is the name of the first such rule in
    catalog order.  Without recorded violations, or for a receipt that
    passes, no field is marked. *)
Theorem field_error_iff_rule_of_kind_fires
        (host : Js.Host) (data : ReceiptData.t) (rules : list AuditRule.t)
        (activeRuleIds : option (list string)) (field : Field)
        (Hids : NoDup (map AuditRule.id rules))
        (Hne : forall r, In r rules -> AuditRule.id r <> "") :
  let res := evaluateRules host data rules activeRuleIds in
  let fired := filter (fires host data activeRuleIds) rules in
  let v := getFieldValidation rules (Some (AuditResult.triggeredRules res))
                              field in
  (fst v = true <->
   exists r, In r rules /\ fires host data activeRuleIds r = true
             /\ field_of_rule field r = true)
  /\ v = match find (field_of_rule field) fired with
         | Some r => (true, Some (AuditRule.name r))
         | None => (false, None)
         end
  /\ (AuditResult.passed res = true -> v = (false, None))
  /\ getFieldValidation rules None field = (false, None).
Proof.
  intros res fired v.
  assert (Sub : forall r, In r fired -> In r rules)
    by (intros r H; apply filter_In in H; tauto).
  assert (V : v = match find (field_of_rule field) fired with
                  | Some r => (true, Some (AuditRule.name r))
                  | None => (false, None)
                  end).
  { unfold v, res, getFieldValidation; rewrite evaluateRules_triggered.
    fold fired; rewrite (find_violation_id rules fired field Hids Sub).
    destruct (find (field_of_rule field) fired) as [r|] eqn:F; simpl;
      [|reflexivity].
    apply find_some in F; destruct F as [Hr _].
    assert (T : Js.truthy (AuditRule.id r) = true)
      by (apply truthy_nonempty, Hne, Sub, Hr).
    now rewrite T, (rule_by_id_In rules r Hids (Sub r Hr)). }
  split; [|split; [exact V|split; [|reflexivity]]].
  - rewrite V; destruct (find (field_of_rule field) fired) as [r|] eqn:F;
      simpl; split; intros H; try reflexivity; try discriminate.
    + apply find_some in F; destruct F as [Hr Fr]; exists r.
      apply filter_In in Hr; tauto.
    + destruct H as [r [Hr [Fi Fk]]].
      assert (Hf : In r fired) by (apply filter_In; auto).
      pose proof (find_none _ _ F r Hf); congruence.
  - intros P; rewrite V.
    assert (E : fired = []).
    { unfold res in P; rewrite evaluateRules_passed, evaluateRules_triggered in P.
      fold fired in P; destruct fired; [reflexivity | discriminate]. }
    now rewrite E.
Qed.

Lemma field_error_iff_rule_of_kind_fires_witness :
  NoDup (map AuditRule.id catalog)
  /\ (forall r, In r catalog -> AuditRule.id r <> "")
  /\ getFieldValidation catalog
       (Some (AuditResult.triggeredRules
                (evaluateRules hostUTC receipt_sat catalog None)))
       category
     = (true, Some "r2")
  /\ (fst (getFieldValidation catalog
             (Some (AuditResult.triggeredRules
                      (evaluateRules hostUTC receipt_sat catalog None)))
             merchantName) = true
      <-> exists r, In r catalog /\ fires hostUTC receipt_sat None r = true
                    /\ field_of_rule merchantName r = true).
Proof.
  pose proof catalog_ids_distinct as H.
  assert (Hne : forall r, In r catalog -> AuditRule.id r <> "").
  { intros r Hr; simpl in Hr.
    destruct Hr as [<-|[<-|[<-|[<-|[<-|[<-|[]]]]]]]; discriminate. }
  split; [exact H|]; split; [exact Hne|]; split; [reflexivity|].
  exact (proj1 (field_error_iff_rule_of_kind_fires hostUTC receipt_sat catalog
                  None merchantName H Hne)).
Defined.

(** * Links between request types and rules *)

Lemma links_valid_link_new (rules : list AuditRule.t) (rule : AuditRule.t)
      (l : list RequestType.t) :
  links_valid rules l ->
  links_valid (rules ++ [rule]) (map (link_new (AuditRule.id rule)) l).
Proof.
  intros V rt' i Hin Hi; apply in_map_iff in Hin.
  destruct Hin as [rt [<- Hrt]].
  unfold links_or_empty, link_new in Hi; simpl in Hi.
  rewrite map_app, in_app_iff; apply in_app_or in Hi.
  destruct Hi as [Hi|[<-|[]]]; [left | right; now left].
  apply (V rt i Hrt); exact Hi.
Qed.

Lemma links_valid_same_ids (rules rules' : list AuditRule.t)
      (l : list RequestType.t) :
  map AuditRule.id rules' = map AuditRule.id rules ->
  links_valid rules l -> links_valid rules' l.
Proof. intros E V rt i Hrt Hi; rewrite E; eauto. Qed.

(** X25: the handlers of the settings page keep the links well founded.
    If every id linked by a request type is the id of a rule of the
    catalog, this still holds after deleting a rule, adding a preset,
    saving the rule form (creation, edit or refusal), switching a rule on
    or off, and deleting a request type. *)
Theorem handlers_keep_links_valid
        (st : Settings)
        (Hvalid : links_valid (rules st) (requestTypes st)) :
  (forall id,
     let st' := handleDeleteRule false true id st in
     links_valid (rules st') (requestTypes st'))
  /\ (forall newId preset,
        let st' := handleAddPreset false newId preset st in
        links_valid (rules st') (requestTypes st'))
  /\ (forall now newRule,
        let st' := fst (handleSaveRule false now newRule st) in
        links_valid (rules st') (requestTypes st'))
  /\ (forall id,
        let st' := handleToggle false id st in
        links_valid (rules st') (requestTypes st'))
  /\ (forall id,
        links_valid (rules st)
          (handleDeleteRequestType false true id (requestTypes st))).
Proof.
  split; [|split; [|split; [|split]]].
  - intros id st' rt' i Hin Hi; unfold st', handleDeleteRule in *; simpl in *.
    apply in_map_iff in Hin; destruct Hin as [rt [<- Hrt]].
    unfold links_or_empty, unlink in Hi; simpl in Hi.
    destruct (RequestType.linkedRuleIds rt) as [ids|] eqn:L; [|destruct Hi].
    apply filter_In in Hi; destruct Hi as [Hi Ni].
    assert (Hl : In i (links_or_empty rt))
      by (unfold links_or_empty; now rewrite L).
    apply (Hvalid rt i Hrt), in_map_iff in Hl.
    destruct Hl as [r [E Hr]]; apply in_map_iff; exists r; split; [exact E|].
    apply filter_In; split; [exact Hr | now rewrite E].
  - intros newId preset st'; unfold st', handleAddPreset; simpl.
    match goal with |- links_valid (_ ++ [?r]) _ =>
      exact (links_valid_link_new (rules st) r (requestTypes st) Hvalid) end.
  - intros now newRule st'; unfold st', handleSaveRule; simpl.
    destruct (negb (Js.truthy (NewRule.name newRule))
              || value_is_empty (NewRule.value newRule)); [exact Hvalid|].
    assert (Create :
      links_valid (rules st ++ [created_rule (decimal now) newRule])
                  (map (link_new (decimal now)) (requestTypes st))).
    { exact (links_valid_link_new (rules st)
               (created_rule (decimal now) newRule) (requestTypes st) Hvalid). }
    destruct (editingRuleId st) as [e|]; [|exact Create].
    destruct (Js.truthy e); [|exact Create]; simpl.
    apply (links_valid_same_ids (rules st)); [|exact Hvalid].
    rewrite map_map; apply map_ext; intros r.
    now destruct (AuditRule.id r =? e)%string.
  - intros id st'; unfold st', handleToggle; simpl.
    apply (links_valid_same_ids (rules st)); [|exact Hvalid].
    rewrite map_map; apply map_ext; intros r; apply toggle_rule_id.
  - intros id rt i Hin Hi; unfold handleDeleteRequestType in Hin.
    apply filter_In in Hin; destruct Hin as [Hin _]; eauto.
Qed.

Lemma handlers_keep_links_valid_witness :
  links_valid (rules settings_sample) (requestTypes settings_sample)
  /\ links_valid
       (rules (handleDeleteRule false true "r2" settings_sample))
       (requestTypes (handleDeleteRule false true "r2" settings_sample))
  /\ map RequestType.linkedRuleIds
         (requestTypes (handleAddPreset false "p1" preset_taxi settings_sample))
     = [Some ["r2"; "r1"; "r3"; "r2"; "r4"; "p1"]; Some ["r1"; "p1"];
        Some ["p1"]].
Proof.
  assert (H : links_valid (rules settings_sample)
                          (requestTypes settings_sample)).
  { intros rt i Hrt Hi; simpl in Hrt.
    destruct Hrt as [<-|[<-|[<-|[]]]]; simpl in Hi; simpl; intuition. }
  split; [exact H|]; split; [|reflexivity].
  exact (proj1 (handlers_keep_links_valid settings_sample H) "r2").
Defined.

Lemma find_type_after_delete (id : string) (l : list RequestType.t)
      (rt : RequestType.t) :
  NoDup (map RequestType.name l) -> In rt l -> RequestType.id rt = id ->
  find_type (filter (fun t => negb (RequestType.id t =? id)%string) l)
            (RequestType.name rt) = None.
Proof.
  intros Hn Hin Hid; apply find_type_absent.
  rewrite in_map_iff; intros [t [E Ht]].
  apply filter_In in Ht; destruct Ht as [Ht Nt].
  rewrite (NoDup_map_In_same RequestType.name l t rt Hn Ht Hin E), Hid in Nt.
  now rewrite String.eqb_refl in Nt.
Qed.

(** X26: deleting a request type widens the check of what is still filed
    under its name.  When names are distinct, after a confirmed deletion
    the name of the deleted request type resolves to no list of active
    ids, so a receipt filed under that name is checked against every
    enabled rule, whatever the deleted request type linked; the other
    request types are kept, in order. *)
Theorem deleted_type_falls_back_to_all_rules
        (id : string) (requestTypes : list RequestType.t)
        (rt : RequestType.t)
        (Hnames : NoDup (map RequestType.name requestTypes))
        (Hin : In rt requestTypes)
        (Hid : RequestType.id rt = id) :
  let types' := handleDeleteRequestType false true id requestTypes in
  getActiveRulesForType types' (RequestType.name rt) = None
  /\ (forall host data rules,
        evaluateRules host data rules
                      (getActiveRulesForType types' (RequestType.name rt))
        = evaluateRules host data rules None)
  /\ Subseq types' requestTypes
  /\ (forall t, In t requestTypes -> RequestType.id t <> id -> In t types')
  /\ handleDeleteRequestType true true id requestTypes = requestTypes
  /\ handleDeleteRequestType false false id requestTypes = requestTypes.
Proof.
  intros types'; unfold types', handleDeleteRequestType.
  assert (G : getActiveRulesForType
                (filter (fun t => negb (RequestType.id t =? id)%string)
                        requestTypes) (RequestType.name rt) = None).
  { unfold getActiveRulesForType.
    now rewrite (find_type_after_delete id requestTypes rt Hnames Hin Hid). }
  split; [exact G|]; split; [|split; [|split; [|split; reflexivity]]].
  - intros host data rules; now rewrite G.
  - apply Subseq_filter.
  - intros t Ht Nt; apply filter_In; split; [exact Ht|].
    now destruct (String.eqb_spec (RequestType.id t) id).
Qed.

Lemma deleted_type_falls_back_to_all_rules_witness :
  NoDup (map RequestType.name (requestTypes settings_sample))
  /\ AuditResult.triggeredRules
       (evaluateRules hostUTC receipt_sat catalog
          (getActiveRulesForType (requestTypes settings_sample) "Meals"))
     = ["r1"]
  /\ AuditResult.triggeredRules
       (evaluateRules hostUTC receipt_sat catalog
          (getActiveRulesForType
             (handleDeleteRequestType false true "rt_meals"
                                      (requestTypes settings_sample))
             "Meals"))
     = ["r1"; "r2"; "r3"]
  /\ getActiveRulesForType
       (handleDeleteRequestType false true "rt_meals"
                                (requestTypes settings_sample)) "Meals"
     = None.
Proof.
  assert (H : NoDup (map RequestType.name (requestTypes settings_sample))).
  { simpl; repeat constructor; simpl; intuition discriminate. }
  split; [exact H|]; split; [reflexivity|]; split; [reflexivity|].
  exact (proj1 (deleted_type_falls_back_to_all_rules "rt_meals"
                  (requestTypes settings_sample)
                  {| RequestType.id := "rt_meals"; RequestType.name := "Meals";
                     RequestType.linkedRuleIds := Some ["r1"] |}
                  H (or_intror (or_introl eq_refl)) eq_refl)).
Defined.
